(** * check_dell_s_series: the status-evaluation engine of the Nagios plugin

    A shallow embedding of [src/check_dell_s_series.py]: the three check
    functions [get_snmp_oper_status], [get_system_info] and
    [get_temperatures], over a small model of the Python values they
    handle (bytes, str, int, float, exceptions, dicts) and of the netsnmp
    session they query. *)

From Stdlib Require Import ZArith Lia String Ascii DecimalString DecimalZ.
From stdpp Require Import base option list strings gmap sorting.

Local Open Scope Z_scope.

(** ** Python values *)

Module Py.

(** The exceptions the modelled code can raise. *)
Inductive exn : Set :=
| TypeError | AttributeError | ValueError | UnicodeDecodeError
| IndexError | OverflowError | ZeroDivisionError.

(** A computation either returns a value or raises. *)
Inductive result (A : Type) : Type :=
| Ok (a : A)
| Raise (e : exn).
Global Arguments Ok {A} a.
Global Arguments Raise {A} e.

Global Instance result_ret : MRet result := fun A a => Ok a.
Global Instance result_bind : MBind result := fun A B f m =>
  match m with
  | Ok a => f a
  | Raise e => Raise e
  end.
Global Instance result_fmap : FMap result := fun A B f m =>
  match m with
  | Ok a => Ok (f a)
  | Raise e => Raise e
  end.

(** [bytes] and [str] are both kept as byte strings: a [str] is held in
    its UTF-8 encoding, so that [decode] is a validity check and the
    degree sign of the messages is the two bytes 194 176. *)
Abbreviation bytes := string (only parsing).
Abbreviation str := string (only parsing).

Definition byte_val (c : ascii) : Z := Z.of_N (N_of_ascii c).

Definition is_cont (c : ascii) : bool :=
  (128 <=? byte_val c) && (byte_val c <=? 191).

(** Well-formed UTF-8 (no overlong forms, no surrogates, at most
    U+10FFFF), as the strict decoder of CPython accepts it. *)
Fixpoint utf8_valid (s : string) : bool :=
  match s with
  | EmptyString => true
  | String c r =>
      let b := byte_val c in
      if b <? 128 then utf8_valid r
      else if (194 <=? b) && (b <=? 223) then
        match r with
        | String c1 r1 => is_cont c1 && utf8_valid r1
        | _ => false
        end
      else if (224 <=? b) && (b <=? 239) then
        match r with
        | String c1 (String c2 r2) =>
            let b1 := byte_val c1 in
            is_cont c1 && is_cont c2
            && (if b =? 224 then 160 <=? b1 else true)
            && (if b =? 237 then b1 <=? 159 else true)
            && utf8_valid r2
        | _ => false
        end
      else if (240 <=? b) && (b <=? 244) then
        match r with
        | String c1 (String c2 (String c3 r3)) =>
            let b1 := byte_val c1 in
            is_cont c1 && is_cont c2 && is_cont c3
            && (if b =? 240 then 144 <=? b1 else true)
            && (if b =? 244 then b1 <=? 143 else true)
            && utf8_valid r3
        | _ => false
        end
      else false
  end.

(** [b.decode("utf-8")] *)
Definition decode (b : bytes) : result str :=
  if utf8_valid b then Ok b else Raise UnicodeDecodeError.

(** [x.decode("utf-8")] where [x] may be [None]: [None] has no
    attribute [decode]. *)
Definition decode_item (x : option bytes) : result str :=
  match x with
  | Some b => decode b
  | None => Raise AttributeError
  end.

(** [str(n)] for an [int]. *)
Definition str_of_int (n : Z) : str := NilEmpty.string_of_int (Z.to_int n).

(** The white space [int()] skips around the digits of an ASCII text:
    tab, line feed, vertical tab, form feed, carriage return and the
    blank. *)
Definition is_space (c : ascii) : bool :=
  let b := byte_val c in
  ((9 <=? b) && (b <=? 13)) || (b =? 32).

Fixpoint lstrip (s : string) : string :=
  match s with
  | String c r => if is_space c then lstrip r else s
  | EmptyString => EmptyString
  end.

Fixpoint rstrip (s : string) : string :=
  match s with
  | String c r =>
      match rstrip r with
      | EmptyString => if is_space c then EmptyString else String c EmptyString
      | r' => String c r'
      end
  | EmptyString => EmptyString
  end.

Definition digit_val (c : ascii) : option Z :=
  let b := byte_val c in
  if (48 <=? b) && (b <=? 57) then Some (b - 48) else None.

(** Decimal digits, with single underscores between digits.
    [prev] tells whether the character before was a digit. *)
Fixpoint parse_digits (s : string) (acc : Z) (prev : bool) : option Z :=
  match s with
  | EmptyString => if prev then Some acc else None
  | String c r =>
      match digit_val c with
      | Some d => parse_digits r (10 * acc + d) true
      | None =>
          if Ascii.eqb c "_"%char && prev then parse_digits r acc false
          else None
      end
  end.

Definition parse_int (s : string) : option Z :=
  match rstrip (lstrip s) with
  | String "-" r => Z.opp <$> parse_digits r 0 false
  | String "+" r => parse_digits r 0 false
  | t => parse_digits t 0 false
  end.

(** [int(s)] for a [str], base ten: white space around, an optional
    sign, digits with single underscores between them.  Texts in ASCII
    are modelled: on a text with another character this gives
    [ValueError], while CPython also takes the Unicode blanks and decimal
    digits; the limit that recent versions put on the number of digits
    is left out. *)
Definition int_of_str (s : str) : result Z :=
  match parse_int s with
  | Some n => Ok n
  | None => Raise ValueError
  end.

(** [d.get(k)] inside an f-string: a missing key prints as [None]. *)
Definition fmt (o : option str) : str := default "None" o.

(** [seq[i]] on a list. *)
Definition index {A} (l : list A) (i : nat) : result A :=
  match l !! i with
  | Some a => Ok a
  | None => Raise IndexError
  end.

End Py.

Import Py.

(** ** Python floats: true division of integers and [str] *)

Module PyFloat.

(** A finite binary64 number [(-1)^neg * man * 2^exp], kept canonical:
    [man < 2^53], [-1074 <= exp <= 971], and [2^52 <= man] unless
    [exp = -1074] (subnormal numbers and zero). *)
Record float : Set := Float { neg : bool; man : Z; exp : Z }.

(** [floor (log2 (n / d))] for positive [n] and [d]. *)
Definition floor_log2_ratio (n d : Z) : Z :=
  let k := Z.log2 n - Z.log2 d in
  let reached := if 0 <=? k then d * 2 ^ k <=? n else d <=? n * 2 ^ (- k) in
  if reached then k else k - 1.

(** The binary64 number nearest to [n / d] (ties to even), for positive
    [n] and [d], as mantissa and exponent; the exponent is above 971
    exactly when the rounded value is out of range. *)
Definition round_ratio (n d : Z) : Z * Z :=
  let e := Z.max (floor_log2_ratio n d - 52) (-1074) in
  let N := if 0 <=? e then n else n * 2 ^ (- e) in
  let D := if 0 <=? e then d * 2 ^ e else d in
  let q := N / D in
  let r := N mod D in
  let q' := if (D <? 2 * r) || ((D =? 2 * r) && Z.odd q) then q + 1 else q in
  if q' =? 2 ^ 53 then (2 ^ 52, e + 1) else (q', e).

(** [a / b] on two [int]s: the correctly rounded quotient. *)
Definition true_div (a b : Z) : result float :=
  if b =? 0 then Raise ZeroDivisionError
  else
    let sign := xorb (a <? 0) (b <? 0) in
    if a =? 0 then Ok (Float sign 0 (-1074))
    else
      let '(m, e) := round_ratio (Z.abs a) (Z.abs b) in
      if 971 <? e then Raise OverflowError else Ok (Float sign m e).

(** [m * 2^x] is a binary64 number in canonical form. *)
Definition canonical (m x : Z) : Prop :=
  0 ≤ m < 2 ^ 53 ∧ -1074 ≤ x ∧ (2 ^ 52 ≤ m ∨ x = -1074).

(** [m * 2^x] is the quotient [n / d]. *)
Definition represents (m x n d : Z) : Prop :=
  if 0 <=? x then m * 2 ^ x * d = n else m * d = n * 2 ^ (- x).

(** [m * 2^x] is within half a unit of its last place of [n / d]. *)
Definition half_ulp_close (m x n d : Z) : Prop :=
  if 0 <=? x then 2 * Z.abs (m * 2 ^ x * d - n) ≤ 2 ^ x * d
  else 2 * Z.abs (m * d - n * 2 ^ (- x)) ≤ d.

(** The value of [x] in units of [2^-1074], with its sign. *)
Definition scaled (x : float) : Z :=
  (if neg x then -1 else 1) * (man x * 2 ^ (exp x + 1074)).

(** [x] is a finite binary64 number. *)
Definition binary64 (x : float) : Prop :=
  canonical (man x) (exp x) ∧ exp x ≤ 971.

(** How far [x] is from [a / b], in units of [2^-1074 / |b|]. *)
Definition distance (a b : Z) (x : float) : Z :=
  Z.abs (scaled x * b - a * 2 ^ 1074).

(** [x] is a float nearest to [a / b], with its sign: a binary64 number
    within half a unit of its last place of the quotient, and no binary64
    number is nearer to the quotient. *)
Definition nearest_float (a b : Z) (x : float) : Prop :=
  neg x = xorb (a <? 0) (b <? 0)
  ∧ canonical (man x) (exp x) ∧ exp x ≤ 971
  ∧ half_ulp_close (man x) (exp x) (Z.abs a) (Z.abs b)
  ∧ ∀ y, binary64 y → distance a b x ≤ distance a b y.

(** [x] is [a / b] itself. *)
Definition exact_float (a b : Z) (x : float) : Prop :=
  neg x = xorb (a <? 0) (b <? 0)
  ∧ represents (man x) (exp x) (Z.abs a) (Z.abs b).

(** [a / b] is a binary64 number. *)
Definition float_quotient (a b : Z) : Prop :=
  ∃ M E, 0 ≤ M < 2 ^ 53 ∧ -1074 ≤ E ≤ 971 ∧ represents M E (Z.abs a) (Z.abs b).

(** Number of decimal digits of a positive integer. *)
Definition nb_digits (n : Z) : Z :=
  Z.of_nat (String.length (str_of_int n)).

(** [floor (log10 (n / d))] for positive [n] and [d]. *)
Definition floor_log10_ratio (n d : Z) : Z :=
  if d <=? n then nb_digits (n / d) - 1
  else
    let g := nb_digits (d / n) - 1 in
    if d <=? n * 10 ^ g then - g else - (g + 1).

(** The value [c * 10^s] as a binary64 mantissa and exponent. *)
Definition round_decimal (c s : Z) : Z * Z :=
  if c =? 0 then (0, -1074)
  else if 0 <=? s then round_ratio (c * 10 ^ s) 1
  else round_ratio c (10 ^ (- s)).

(** The candidate with [p] digits for the shortest decimal that reads
    back as [n / d = man * 2^exp]: the nearer of the two [p]-digit
    decimals around the value, among those that round to it.
    Result: the digits as an integer and their scale. *)
Definition candidate (m e n d : Z) (p : Z) : option (Z * Z) :=
  let s := floor_log10_ratio n d - (p - 1) in
  let N := if 0 <=? s then n else n * 10 ^ (- s) in
  let D := if 0 <=? s then d * 10 ^ s else d in
  let lo := N / D in
  let r := N mod D in
  let hi := lo + 1 in
  let back c := let '(m', e') := round_decimal c s in (m' =? m) && (e' =? e) in
  if r =? 0 then Some (lo, s)
  else
    match back lo, back hi with
    | true, true =>
        if (2 * r <? D) || ((2 * r =? D) && Z.even lo)
        then Some (lo, s) else Some (hi, s)
    | true, false => Some (lo, s)
    | false, true => Some (hi, s)
    | false, false => None
    end.

Fixpoint shortest (m e n d : Z) (p : Z) (fuel : nat) : Z * Z :=
  match fuel with
  | O => (0, 0)
  | S fuel' =>
      match candidate m e n d p with
      | Some cs => cs
      | None => shortest m e n d (p + 1) fuel'
      end
  end.

(** Drop the zeros at the end of the digits, raising the scale. *)
Fixpoint strip_zeros (c s : Z) (fuel : nat) : Z * Z :=
  match fuel with
  | O => (c, s)
  | S fuel' =>
      if (c mod 10 =? 0) && negb (c =? 0)
      then strip_zeros (c / 10) (s + 1) fuel' else (c, s)
  end.

Fixpoint zeros (n : nat) : string :=
  match n with
  | O => EmptyString
  | S n' => String "0" (zeros n')
  end.

(** The first [n] characters, and the rest. *)
Fixpoint take_str (n : nat) (s : string) : string :=
  match n, s with
  | S n', String c r => String c (take_str n' r)
  | _, _ => EmptyString
  end.

Fixpoint drop_str (n : nat) (s : string) : string :=
  match n, s with
  | S n', String c r => drop_str n' r
  | _, _ => s
  end.

(** [repr] of a positive number from its digits and the position
    [decpt] of the decimal point: exponent form when [decpt <= -4] or
    [decpt > 16], else positional with at least one digit after the
    point. *)
Definition format_digits (digits : string) (decpt : Z) : string :=
  let nd := Z.of_nat (String.length digits) in
  if (decpt <=? -4) || (16 <? decpt) then
    let x := decpt - 1 in
    let xs := str_of_int (Z.abs x) in
    let xs := if Z.abs x <? 10 then String "0" xs else xs in
    take_str 1 digits
      +:+ (if 1 <? nd then "." +:+ drop_str 1 digits else "")
      +:+ "e" +:+ (if x <? 0 then "-" else "+") +:+ xs
  else if decpt <=? 0 then
    "0." +:+ zeros (Z.to_nat (- decpt)) +:+ digits
  else if decpt <? nd then
    take_str (Z.to_nat decpt) digits +:+ "." +:+ drop_str (Z.to_nat decpt) digits
  else
    digits +:+ zeros (Z.to_nat (decpt - nd)) +:+ ".0".

(** [str(x)] for a [float]: the shortest digits that read back as [x]. *)
Definition str_of_float (x : float) : str :=
  let sign := if neg x then "-" else "" in
  if man x =? 0 then sign +:+ "0.0"
  else
    let n := if 0 <=? exp x then man x * 2 ^ exp x else man x in
    let d := if 0 <=? exp x then 1 else 2 ^ (- exp x) in
    let '(c, s) := shortest (man x) (exp x) n d 1 17 in
    let '(c, s) := strip_zeros c s 17 in
    let digits := str_of_int c in
    sign +:+ format_digits digits (s + Z.of_nat (String.length digits)).

End PyFloat.

Import PyFloat.

(** ** The netsnmp session *)

(** [netsnmp.Varbind(tag, iid)] *)
Record Varbind : Set := { tag : string; iid : option Z }.

Definition Varbind1 (oid : string) : Varbind := {| tag := oid; iid := None |}.
Definition Varbind2 (oid : string) (i : Z) : Varbind := {| tag := oid; iid := Some i |}.

(** What a request gives back: [None], or a tuple whose entries are
    [bytes] or [None]. *)
Definition fetched : Type := option (list (option bytes)).

(** The device as seen during one evaluation: the answer to each
    request. *)
Record Session : Type := {
  walk : list Varbind -> fetched;
  get : list Varbind -> fetched
}.

(** ** The tables *)

Definition nagiosStatus : gmap string string :=
  list_to_map [("0", "OK"); ("1", "WARNING"); ("2", "CRITICAL"); ("3", "UNKNOWN")].

Definition Os10CmnOperStatus : gmap string string :=
  list_to_map
    [("1", "up"); ("2", "down"); ("3", "testing"); ("4", "unknown");
     ("5", "dormant"); ("6", "notPresent"); ("7", "lowerLayerDown");
     ("8", "failed")].

Definition Os10ChassisDefType : gmap string string :=
  list_to_map
    [("1", "s6000on"); ("2", "s4048on"); ("3", "s4048Ton"); ("4", "s3048on");
     ("5", "s6010on"); ("6", "s4148Fon"); ("7", "s4128Fon"); ("8", "s4148Ton");
     ("9", "s4128Ton"); ("10", "s4148FEon"); ("11", "s4148Uon");
     ("12", "s4200on"); ("13", "mx5108Non"); ("14", "mx9116Non");
     ("15", "s5148Fon"); ("16", "z9100on"); ("17", "s4248FBon");
     ("18", "s4248FBLon"); ("19", "s4112Fon"); ("20", "s4112Ton");
     ("21", "z9264Fon"); ("22", "z9224Fon"); ("23", "s5212Fon");
     ("24", "s5224Fon"); ("25", "s5232Fon"); ("26", "s5248Fon");
     ("27", "s5296Fon"); ("28", "z9332Fon"); ("29", "n3248TEon");
     ("9999", "unknown")].

Definition Os10CardOperStatus : gmap string string :=
  list_to_map
    [("1", "ready"); ("2", "cardMisMatch"); ("3", "cardProblem");
     ("4", "diagMode"); ("5", "cardAbsent"); ("6", "offline")].

(** ** The checks *)

(** The requests of the checks. *)
Definition sys_varlist : list Varbind :=
  [Varbind2 ".1.3.6.1.2.1.1.5" 0;   (* sysName *)
   Varbind2 ".1.3.6.1.2.1.1.2" 0;   (* sysObjectId *)
   Varbind2 ".1.3.6.1.2.1.1.1" 0].  (* sysDescr *)

Definition chassis_varlist : list Varbind :=
  [Varbind1 ".1.3.6.1.4.1.674.11000.5000.100.4.1.1.3.1.2.1";   (* chassis type *)
   Varbind1 ".1.3.6.1.4.1.674.11000.5000.100.4.1.1.3.1.6.1";   (* chassis hw rev. *)
   Varbind1 ".1.3.6.1.4.1.674.11000.5000.100.4.1.1.3.1.4.1";   (* chassis p/n *)
   Varbind1 ".1.3.6.1.4.1.674.11000.5000.100.4.1.1.3.1.7.1"].  (* chassis service tag *)

Definition card_varlist : list Varbind :=
  [Varbind1 ".1.3.6.1.4.1.674.11000.5000.100.4.1.1.4.1.3.1.1";   (* card descr *)
   Varbind1 ".1.3.6.1.4.1.674.11000.5000.100.4.1.1.4.1.8.1.1";   (* card h/w rev. *)
   Varbind1 ".1.3.6.1.4.1.674.11000.5000.100.4.1.1.4.1.6.1.1";   (* card P/N *)
   Varbind1 ".1.3.6.1.4.1.674.11000.5000.100.4.1.1.4.1.4.1.1";   (* card status *)
   Varbind1 ".1.3.6.1.4.1.674.11000.5000.100.4.1.1.4.1.9.1.1"].  (* card Service Tag *)

Definition temperature_varlist : list Varbind :=
  [Varbind1 ".1.3.6.1.4.1.674.11000.5000.100.4.1.1.3.1.11.1";    (* chassis temp. *)
   Varbind1 ".1.3.6.1.4.1.674.11000.5000.100.4.1.1.4.1.5.1.1"].  (* card temp. *)

(** What a check returns: [ret_code, messages, perf_data]. *)
Definition verdict : Type := Z * list str * list str.

Definition unable : verdict := (3, ["Unable to get SNMP metrics from server !"], []).

(** [not vals] on what a request gave back: true of [None] and of the
    empty tuple. *)
Definition not_vals {A} (vals : option (list A)) : bool :=
  match vals with
  | Some (_ :: _) => false
  | _ => true
  end.

(** The body of the loop of [get_snmp_oper_status], from entry [index]
    on. *)
Fixpoint oper_status_loop (hw_type : str) (index : Z) (vals : list (option bytes))
    (ret_code : Z) (messages : list str) (count_fail : Z)
  : result (Z * list str * Z) :=
  match vals with
  | [] => Ok (ret_code, messages, count_fail)
  | item :: rest =>
      text ← decode_item item;
      status ← int_of_str text;
      let ret_code := if status =? 4 then 3 else ret_code in
      let count_fail :=
        if status =? 4 then count_fail
        else if negb (status =? 1) then count_fail + 1 else count_fail in
      let messages :=
        messages ++ [hw_type +:+ " #" +:+ str_of_int index +:+ " reported as "
                     +:+ fmt (Os10CmnOperStatus !! str_of_int status)] in
      oper_status_loop hw_type (index + 1) rest ret_code messages count_fail
  end.

Definition get_snmp_oper_status (snmp_session : Session) (snmp_oid : string)
    (hw_type : str) (warn crit : Z) : result verdict :=
  let vals := walk snmp_session [Varbind1 snmp_oid] in
  if not_vals vals then Ok unable
  else
    '(ret_code, messages, count_fail) ←
      oper_status_loop hw_type 1 (default [] vals) 0 [] 0;
    if negb (ret_code =? 3) then
      if count_fail =? 0 then
        Ok (0, ("All " +:+ hw_type +:+ " (s) OK") :: messages, [])
      else
        let messages := ("Failed or error found for " +:+ hw_type) :: messages in
        let ret_code := if count_fail <? warn then 1 else ret_code in
        let ret_code := if count_fail <? crit then 2 else ret_code in
        Ok (ret_code, messages, [])
    else Ok (ret_code, messages, []).

(** [[b.decode("utf-8") for b in snmp_session.get(varlist)]]: iterating
    over [None] is a [TypeError], decoding a [None] entry an
    [AttributeError].  The entries of the list are kept as optional
    texts, as the test [None in vals] that follows reads them. *)
Definition decode_all (got : fetched) : result (list (option str)) :=
  match got with
  | None => Raise TypeError
  | Some l => mapM (fun b => Some <$> decode_item b) l
  end.

(** [not vals or None in vals] *)
Definition incomplete (vals : list (option str)) : bool :=
  not_vals (Some vals) || bool_decide (None ∈ vals).

(** [int(x)] on an entry: [int(None)] is a [TypeError]. *)
Definition int_of_item (x : option str) : result Z :=
  match x with
  | Some s => int_of_str s
  | None => Raise TypeError
  end.

(** A newline. *)
Definition nl : string := String (ascii_of_nat 10) EmptyString.

Definition get_system_info (snmp_session : Session) : result verdict :=
  let ret_code := 0 in
  let messages := [] in
  vals ← decode_all (get snmp_session sys_varlist);
  if incomplete vals then Ok unable
  else
    v0 ← index vals 0; v1 ← index vals 1; v2 ← index vals 2;
    let messages :=
      messages ++ [fmt v0 +:+ " ( " +:+ fmt v1 +:+ " )" +:+ nl +:+ fmt v2] in
    vals ← decode_all (get snmp_session chassis_varlist);
    if incomplete vals then Ok unable
    else
      v0 ← index vals 0; v1 ← index vals 1; v2 ← index vals 2; v3 ← index vals 3;
      let messages :=
        messages ++ ["Chassis: " +:+ fmt (v0 ≫= (Os10ChassisDefType !!.))
                     +:+ " (rev. " +:+ fmt v1 +:+ ") - p/n: " +:+ fmt v2
                     +:+ " - ServiceTag: " +:+ fmt v3] in
      vals ← decode_all (get snmp_session card_varlist);
      if incomplete vals then Ok unable
      else
        v3 ← index vals 3;
        card_status ← int_of_item v3;
        v0 ← index vals 0; v1 ← index vals 1; v2 ← index vals 2; v4 ← index vals 4;
        let messages :=
          messages ++ ["Card: " +:+ fmt v0 +:+ " (rev. " +:+ fmt v1
                       +:+ ") - p/n: " +:+ fmt v2 +:+ " - ServiceTag: " +:+ fmt v4
                       +:+ " - Status: " +:+ fmt (v3 ≫= (Os10CardOperStatus !!.))] in
        let ret_code :=
          if negb (card_status =? 1) then
            if ((card_status =? 4) || (card_status =? 6)) && (ret_code <? 1)
            then 1 else 2
          else ret_code in
        Ok (ret_code, messages, []).

(** The body of the loop of [get_temperatures], from entry [index] on. *)
Fixpoint temperature_loop (warn crit : Z) (index : Z) (vals : list (option str))
    (ret_code : Z) (messages perf_data : list str)
  : result (Z * list str * list str) :=
  match vals with
  | [] => Ok (ret_code, messages, perf_data)
  | temp :: rest =>
      t ← int_of_item temp;
      if (crit <? t) && (ret_code <? 2) then
        temperature_loop warn crit (index + 1) rest 2
          (messages ++ ["Temperature sensor at " +:+ fmt temp
                        +:+ "°C exceeds critical threshold (" +:+ str_of_int crit
                        +:+ "°C)"])
          perf_data
      else if (warn <? t) && (ret_code <? 1) then
        temperature_loop warn crit (index + 1) rest 1
          (messages ++ ["Temperature sensor at " +:+ fmt temp
                        +:+ "°C exceeds warning threshold (" +:+ str_of_int warn
                        +:+ "°C)"])
          perf_data
      else
        temperature_loop warn crit (index + 1) rest ret_code
          (messages ++ ["Temperature sensor at " +:+ fmt temp +:+ "°C"])
          (perf_data ++ ["temp" +:+ str_of_int index +:+ "=" +:+ fmt temp
                         +:+ "°C;" +:+ str_of_int warn +:+ ";" +:+ str_of_int crit])
  end.

(** [sum(xs)] *)
Definition sum (xs : list Z) : Z := foldl Z.add 0 xs.

Definition get_temperatures (snmp_session : Session) (warn crit : Z) : result verdict :=
  vals ← decode_all (get snmp_session temperature_varlist);
  if incomplete vals then Ok unable
  else
    '(ret_code, messages, perf_data) ← temperature_loop warn crit 1 vals 0 [] [];
    if ret_code =? 0 then
      ints ← mapM int_of_item vals;
      avg ← true_div (sum ints) (Z.of_nat (length vals));
      Ok (ret_code,
          ("All temperature sensors OK with an average of " +:+ str_of_float avg
           +:+ "°C") :: messages,
          perf_data)
    else Ok (ret_code, messages, perf_data).

(** ** The command line and the main program *)

(** What [parser.parse_args()] gives when it returns: the five options,
    [mode] one of the four choices of the parser, [warning] and
    [critical] read by [int] (50 and 60 when not given).  When
    [parse_args] does not return, it has ended the program itself, with
    status 0 after [--version] or [-h] and with status 2 after a usage
    error: these runs come before the part of [get_args] and of [main]
    that is modelled, and the theorems on [main] speak of the runs in
    which the command line was parsed. *)
Record Namespace : Set := {
  host : string;
  community : string;
  mode : string;
  warning : Z;
  critical : Z
}.

(** [get_args], from the parsed options on: the thresholds of the modes
    fans and power replace those of the command line. *)
Definition get_args (args : Namespace) : string * string * string * Z * Z :=
  let args :=
    if String.eqb (mode args) "fans" then
      {| host := host args; community := community args; mode := mode args;
         warning := 1; critical := 2 |}
    else if String.eqb (mode args) "power" then
      {| host := host args; community := community args; mode := mode args;
         warning := 0; critical := 1 |}
    else args in
  (host args, community args, mode args, warning args, critical args).

(** [sep.join(xs)] *)
Fixpoint join (sep : string) (xs : list string) : string :=
  match xs with
  | [] => EmptyString
  | [x] => x
  | x :: rest => x +:+ sep +:+ join sep rest
  end.

(** [sorted(xs)] on texts: the ascending arrangement of [xs].  The
    order of [str] is that of the code points, which is the order of the
    bytes of the UTF-8 encoding. *)
Definition sorted (xs : list string) : list string := merge_sort String.le xs.

(** os10FanTrayOperStatus and os10PowerSupplyOperStatus *)
Definition fan_oid : string := ".1.3.6.1.4.1.674.11000.5000.100.4.1.2.2.1.4".
Definition psu_oid : string := ".1.3.6.1.4.1.674.11000.5000.100.4.1.2.1.1.4".

(** The end of [main]: the line it prints for what the check returned,
    and the status it exits with. *)
Definition rendered (v : verdict) : string * Z :=
  let '(ret_code, msg, perf_data) := v in
  let output := fmt (nagiosStatus !! str_of_int ret_code) +:+ ": " in
  let output :=
    match msg with
    | [] => output
    | _ => output +:+ join nl msg
    end in
  let output :=
    match perf_data with
    | [] => output
    | _ => output +:+ " | " +:+ join " " (sorted perf_data)
    end in
  (output, ret_code).

(** [main]: [connect host community] is the session that
    [netsnmp.Session] opens; the result is the line printed and the
    status the process exits with, or the exception that ends it. *)
Definition main (connect : string -> string -> Session) (args : Namespace)
  : result (string * Z) :=
  let ret_code := 3 in
  let msg : list string := [] in
  let perf_data : list string := [] in
  let '(host, community, mode, warn, crit) := get_args args in
  let snmp_session := connect host community in
  '(ret_code, msg, perf_data) ←
    (if String.eqb mode "fans"
     then get_snmp_oper_status snmp_session fan_oid "fan" warn crit
     else Ok (ret_code, msg, perf_data));
  '(ret_code, msg, perf_data) ←
    (if String.eqb mode "power"
     then get_snmp_oper_status snmp_session psu_oid "PSU" warn crit
     else Ok (ret_code, msg, perf_data));
  '(ret_code, msg, perf_data) ←
    (if String.eqb mode "temp"
     then get_temperatures snmp_session warn crit
     else Ok (ret_code, msg, perf_data));
  '(ret_code, msg, perf_data) ←
    (if String.eqb mode "health"
     then get_system_info snmp_session
     else Ok (ret_code, msg, perf_data));
  Ok (rendered (ret_code, msg, perf_data)).

(** ** What the theorems speak of *)

(** The readings of a walk as status codes: each entry decoded and read
    as an integer, as the loop of [get_snmp_oper_status] does. *)
Definition status_of (item : option bytes) : result Z :=
  text ← decode_item item; int_of_str text.

Definition statuses (vals : list (option bytes)) : result (list Z) :=
  mapM status_of vals.

(** The finding on component number [index] with status [code]. *)
Definition finding (hw_type : str) (index code : Z) : str :=
  hw_type +:+ " #" +:+ str_of_int index +:+ " reported as "
  +:+ fmt (Os10CmnOperStatus !! str_of_int code).

(** The findings on the components numbered from [start] on. *)
Definition findings_from (hw_type : str) (start : Z) (codes : list Z) : list str :=
  imap (fun k code => finding hw_type (start + Z.of_nat k) code) codes.

Definition findings (hw_type : str) (codes : list Z) : list str :=
  findings_from hw_type 1 codes.

(** The failure counter: the codes that are neither 1 (up) nor 4
    (unknown). *)
Definition failures (codes : list Z) : Z :=
  Z.of_nat (length (filter (fun c => c ≠ 1 ∧ c ≠ 4) codes)).

Definition severity (r : result verdict) : option Z :=
  match r with
  | Ok (ret_code, _, _) => Some ret_code
  | Raise _ => None
  end.

Definition messages_of (r : result verdict) : list str :=
  match r with
  | Ok (_, messages, _) => messages
  | Raise _ => []
  end.

Definition perf_data_of (r : result verdict) : list str :=
  match r with
  | Ok (_, _, perf_data) => perf_data
  | Raise _ => []
  end.

(** A session that gives the same answer to every request. *)
Definition answering (r : fetched) : Session :=
  {| walk := fun _ => r; get := fun _ => r |}.

(** A session that answers the three requests of the health check. *)
Definition health_session (sys chassis card : fetched) : Session :=
  {| walk := fun _ => None;
     get := fun varlist =>
       match length varlist with
       | 3%nat => sys
       | 4%nat => chassis
       | _ => card
       end |}.

(** A tuple of readings, all present. *)
Definition readings (texts : list string) : fetched := Some (Some <$> texts).

(** The readings of the temperature check as integers, as its loop
    reads them. *)
Definition temperatures (vals : list (option str)) : result (list Z) :=
  mapM int_of_item vals.

(** The severity the temperature loop reaches on readings: CRITICAL when
    one is above [crit], else WARNING when one is above [warn], else
    OK. *)
Definition temperature_severity (warn crit : Z) (temps : list Z) : Z :=
  if existsb (Z.ltb crit) temps then 2
  else if existsb (Z.ltb warn) temps then 1
  else 0.

(** A reading raises the severity that the readings before it have
    reached: it takes the first or the second branch of the loop. *)
Definition raises_to_critical (warn crit : Z) (before : list Z) (t : Z) : bool :=
  (crit <? t) && (temperature_severity warn crit before <? 2).

Definition raises_to_warning (warn crit : Z) (before : list Z) (t : Z) : bool :=
  negb (raises_to_critical warn crit before t)
  && (warn <? t) && (temperature_severity warn crit before <? 1).

Definition raises_severity (warn crit : Z) (before : list Z) (t : Z) : bool :=
  raises_to_critical warn crit before t || raises_to_warning warn crit before t.

(** The metric of reading number [index]. *)
Definition metric (warn crit : Z) (index : Z) (temp : option str) : str :=
  "temp" +:+ str_of_int index +:+ "=" +:+ fmt temp +:+ "°C;"
  +:+ str_of_int warn +:+ ";" +:+ str_of_int crit.

(** The finding on a reading. *)
Definition temperature_finding (warn crit : Z) (before : list Z)
    (temp : option str) (t : Z) : str :=
  if raises_to_critical warn crit before t then
    "Temperature sensor at " +:+ fmt temp +:+ "°C exceeds critical threshold ("
    +:+ str_of_int crit +:+ "°C)"
  else if raises_to_warning warn crit before t then
    "Temperature sensor at " +:+ fmt temp +:+ "°C exceeds warning threshold ("
    +:+ str_of_int warn +:+ "°C)"
  else "Temperature sensor at " +:+ fmt temp +:+ "°C".

(** The findings and the metrics of the readings that come after the
    readings [before]: reading [k] of [vals] is judged against the
    severity reached by [before] and the readings ahead of it, and gets a
    metric exactly when it does not raise that severity. *)
Definition temperature_findings (warn crit : Z) (before : list Z)
    (vals : list (option str)) (temps : list Z) : list str :=
  imap (fun k '(temp, t) =>
          temperature_finding warn crit (before ++ take k temps) temp t)
       (zip vals temps).

Definition temperature_metrics (warn crit : Z) (before : list Z)
    (vals : list (option str)) (temps : list Z) : list str :=
  mjoin (imap (fun k '(temp, t) =>
                 if raises_severity warn crit (before ++ take k temps) t then []
                 else [metric warn crit (Z.of_nat (length before + k) + 1) temp])
              (zip vals temps)).

(** The mean of the readings is within the range of a [float]. *)
Definition mean_in_range (temps : list Z) : bool :=
  match true_div (sum temps) (Z.of_nat (length temps)) with
  | Ok _ => true
  | Raise _ => false
  end.

(** The summary of the temperature check. *)
Definition temperature_summary (avg : float) : str :=
  "All temperature sensors OK with an average of " +:+ str_of_float avg +:+ "°C".

(** A reading far below any temperature: the text of [- 10^400]. *)
Definition far_below : string := String "-" (String "1" (zeros 400)).

(** A request came back complete, with these texts. *)
Definition answered (got : fetched) (texts : list str) : Prop :=
  decode_all got = Ok (Some <$> texts).

(** The digits of an integer, for the round trip of [str] and [int]. *)

(** The value of the digits [d] read after digits worth [acc]. *)
Fixpoint uint_val (d : Decimal.uint) (acc : Z) : Z :=
  match d with
  | Decimal.Nil => acc
  | Decimal.D0 d => uint_val d (10 * acc + 0)
  | Decimal.D1 d => uint_val d (10 * acc + 1)
  | Decimal.D2 d => uint_val d (10 * acc + 2)
  | Decimal.D3 d => uint_val d (10 * acc + 3)
  | Decimal.D4 d => uint_val d (10 * acc + 4)
  | Decimal.D5 d => uint_val d (10 * acc + 5)
  | Decimal.D6 d => uint_val d (10 * acc + 6)
  | Decimal.D7 d => uint_val d (10 * acc + 7)
  | Decimal.D8 d => uint_val d (10 * acc + 8)
  | Decimal.D9 d => uint_val d (10 * acc + 9)
  end.

(** Every character of a text passes the test [f]. *)
Fixpoint all_chars (f : ascii → bool) (s : string) : bool :=
  match s with
  | EmptyString => true
  | String c r => f c && all_chars f r
  end.

Definition is_digit (c : ascii) : bool :=
  match digit_val c with Some _ => true | None => false end.

(** A text in ASCII: every byte is below 128.  On such a text [int_of_str]
    is the [int] of every version of Python. *)
Definition is_ascii (s : string) : bool :=
  all_chars (fun c => byte_val c <? 128) s.

(** An entry of a walk that the loop of [get_snmp_oper_status] cannot
    read as a status: [None], bytes that are no UTF-8, or a text in ASCII
    that [int] does not take. *)
Definition unreadable (item : option bytes) : Prop :=
  match item with
  | None => True
  | Some b =>
      decode b = Raise UnicodeDecodeError
      ∨ (is_ascii b = true ∧ int_of_str b = Raise ValueError)
  end.

(** ** Python values: basic facts *)

Lemma str_of_int_inj (a b : Z) : str_of_int a = str_of_int b → a = b.
Proof.
  unfold str_of_int. intros H.
  apply (f_equal NilEmpty.int_of_string) in H.
  rewrite !NilEmpty.isi in H.
  injection H as H.
  apply (f_equal Z.of_int) in H.
  by rewrite !DecimalZ.of_to in H.
Qed.

Lemma mapM_Ok_nil {A B} (f : A → result B) (ys : list B) :
  mapM f [] = Ok ys → ys = [].
Proof. cbn. by intros [= <-]. Qed.

Lemma mapM_Ok_cons {A B} (f : A → result B) (x : A) (xs : list A) (ys : list B) :
  mapM f (x :: xs) = Ok ys →
  ∃ y ys', ys = y :: ys' ∧ f x = Ok y ∧ mapM f xs = Ok ys'.
Proof.
  cbn. destruct (f x) as [y|e]; cbn; [|discriminate].
  destruct (mapM f xs) as [ys'|e]; cbn; [|discriminate].
  intros [= <-]. eauto.
Qed.

Lemma mapM_Ok_length {A B} (f : A → result B) (xs : list A) (ys : list B) :
  mapM f xs = Ok ys → length ys = length xs.
Proof.
  revert ys. induction xs as [|x xs IH]; intros ys H.
  - by rewrite (mapM_Ok_nil _ _ H).
  - destruct (mapM_Ok_cons _ _ _ _ H) as (y & ys' & -> & _ & H').
    cbn. f_equal. by apply IH.
Qed.

(** ** Python floats: the quotient of two integers *)

(** [floor_log2_ratio n d] is the binary logarithm of [n / d], rounded
    down. *)
Lemma floor_log2_ratio_spec n d :
  0 < n → 0 < d →
  let k := floor_log2_ratio n d in
  (0 ≤ k → d * 2 ^ k ≤ n < d * 2 ^ (k + 1))
  ∧ (k < 0 → d ≤ n * 2 ^ (- k) ∧ n * 2 ^ (- k - 1) < d).
Proof.
  intros Hn Hd. unfold floor_log2_ratio.
  destruct (Z.log2_spec n Hn) as [Ha1 Ha2].
  destruct (Z.log2_spec d Hd) as [Hb1 Hb2].
  pose proof (Z.log2_nonneg n) as Ha0. pose proof (Z.log2_nonneg d) as Hb0.
  set (a := Z.log2 n) in *. set (b := Z.log2 d) in *.
  rewrite <- Z.add_1_r in Ha2, Hb2.
  assert (2 ^ (a + 1) = 2 * 2 ^ a) as Ea by (rewrite Z.pow_add_r by lia; lia).
  assert (2 ^ (b + 1) = 2 * 2 ^ b) as Eb by (rewrite Z.pow_add_r by lia; lia).
  destruct (0 <=? a - b) eqn:Hk0.
  - apply Z.leb_le in Hk0.
    assert (2 ^ a = 2 ^ b * 2 ^ (a - b)) as Eab.
    { rewrite <- Z.pow_add_r by lia. f_equal. lia. }
    assert (0 < 2 ^ (a - b)) as Hp by (apply Z.pow_pos_nonneg; lia).
    destruct (d * 2 ^ (a - b) <=? n) eqn:Hr; cbn zeta.
    + apply Z.leb_le in Hr. split; [|lia]. intros _. split; [done|].
      rewrite Z.pow_add_r by lia. nia.
    + apply Z.leb_gt in Hr. split.
      * intros Hk. replace (a - b - 1 + 1) with (a - b) by lia. split; [|done].
        assert (2 ^ (a - b) = 2 * 2 ^ (a - b - 1)) as E.
        { rewrite <- Z.pow_succ_r by lia. f_equal. lia. }
        nia.
      * intros Hk. assert (a - b = 0) as E0 by lia.
        rewrite E0 in *. replace (- (0 - 1)) with 1 by lia.
        replace (- (0 - 1) - 1) with 0 by lia. 
        assert (a = b) by lia. subst a. lia.
  - apply Z.leb_gt in Hk0.
    assert (2 ^ b = 2 ^ a * 2 ^ (b - a)) as Eab.
    { rewrite <- Z.pow_add_r by lia. f_equal. lia. }
    assert (0 < 2 ^ (b - a)) as Hp by (apply Z.pow_pos_nonneg; lia).
    replace (- (a - b)) with (b - a) by lia.
    destruct (d <=? n * 2 ^ (b - a)) eqn:Hr; cbn zeta.
    + apply Z.leb_le in Hr. split; [lia|]. intros _.
      replace (- (a - b)) with (b - a) by lia. split; [done|].
      assert (2 ^ (b - a) = 2 * 2 ^ (b - a - 1)) as E.
      { rewrite <- Z.pow_succ_r by lia. f_equal. lia. }
      nia.
    + apply Z.leb_gt in Hr. split; [lia|]. intros _.
      replace (- (a - b - 1)) with (b - a + 1) by lia.
      replace (b - a + 1 - 1) with (b - a) by lia. split; [|done].
      rewrite Z.pow_add_r by lia. nia.
Qed.

(** The scaled quotient of [round_ratio]: [N / D = (n / d) / 2^e]. *)
Lemma scaled_bounds n d :
  0 < n → 0 < d →
  let e := Z.max (floor_log2_ratio n d - 52) (-1074) in
  let N := if 0 <=? e then n else n * 2 ^ (- e) in
  let D := if 0 <=? e then d * 2 ^ e else d in
  0 < D ∧ 0 < N ∧ N < 2 ^ 53 * D ∧ (2 ^ 52 * D ≤ N ∨ (e = -1074 ∧ N < 2 ^ 52 * D)).
Proof.
  intros Hn Hd.
  destruct (floor_log2_ratio_spec n d Hn Hd) as [Hk1 Hk2].
  set (k := floor_log2_ratio n d) in *. cbn zeta in Hk1, Hk2. intros e N D.
  assert (2 ^ 53 = 2 * 2 ^ 52) as E53 by reflexivity.
  destruct (Z.max_spec (k - 52) (-1074)) as [[Hlt He]|[Hge He]]; fold e in He.
  - (* subnormal *)
    assert (k < 0) as Hk by lia. destruct (Hk2 Hk) as [_ Hup].
    subst N D. rewrite He. cbn [Z.leb Z.compare Z.opp].
    assert (0 < 2 ^ (- k - 1)) as P3 by (apply Z.pow_pos_nonneg; lia).
    assert (0 < 2 ^ 1074) as P4 by (apply Z.pow_pos_nonneg; lia).
    assert (0 < 2 ^ 52) as P5 by done.
    rewrite E53.
    assert (n * 2 ^ 1074 < 2 ^ 52 * d) as Hsub; [|repeat split; [done|nia|nia|by right]].
    destruct (Z_lt_le_dec k (-1075)) as [Hfar|Hnear].
    + assert (2 ^ 1074 ≤ 2 ^ (- k - 1)) as P2 by (apply Z.pow_le_mono_r; lia).
      generalize dependent (2 ^ (- k - 1)). generalize dependent (2 ^ 1074).
      generalize dependent (2 ^ 52). intros. nia.
    + assert (2 ^ 1074 = 2 ^ (- k - 1) * 2 ^ (1075 + k)) as Ep.
      { rewrite <- Z.pow_add_r by lia. f_equal. lia. }
      assert (0 < 2 ^ (1075 + k)) as P1 by (apply Z.pow_pos_nonneg; lia).
      assert (2 ^ (1075 + k) ≤ 2 ^ 52) as P2 by (apply Z.pow_le_mono_r; lia).
      rewrite Ep.
      generalize dependent (2 ^ (- k - 1)). generalize dependent (2 ^ (1075 + k)).
      generalize dependent (2 ^ 52). intros. nia.
  - (* normal *)
    subst N D. destruct (0 <=? e) eqn:Hs.
    + apply Z.leb_le in Hs. assert (0 ≤ k) as Hk by lia.
      destruct (Hk1 Hk) as [Hlo Hup].
      assert (2 ^ k = 2 ^ 52 * 2 ^ e) as Ep.
      { rewrite <- Z.pow_add_r by lia. f_equal. lia. }
      assert (2 ^ (k + 1) = 2 ^ 53 * 2 ^ e) as Ep'.
      { rewrite <- Z.pow_add_r by lia. f_equal. lia. }
      assert (0 < 2 ^ e) as P1 by (apply Z.pow_pos_nonneg; lia).
      rewrite Ep in Hlo. rewrite Ep' in Hup.
      repeat split; [nia|done|nia|left; nia].
    + apply Z.leb_gt in Hs.
      assert (0 < 2 ^ (- e)) as P1 by (apply Z.pow_pos_nonneg; lia).
      destruct (Z_lt_le_dec k 0) as [Hk|Hk].
      * destruct (Hk2 Hk) as [Hlo Hup].
        assert (2 ^ (- e) = 2 ^ (- k) * 2 ^ 52) as Ep.
        { rewrite <- Z.pow_add_r by lia. f_equal. lia. }
        assert (2 ^ (- e) = 2 ^ (- k - 1) * 2 ^ 53) as Ep'.
        { rewrite <- Z.pow_add_r by lia. f_equal. lia. }
        repeat split; [done|nia| |left].
        -- rewrite Ep'. nia.
        -- rewrite Ep. nia.
      * destruct (Hk1 Hk) as [Hlo Hup].
        assert (2 ^ 52 = 2 ^ k * 2 ^ (- e)) as Ep.
        { rewrite <- Z.pow_add_r by lia. f_equal. lia. }
        assert (2 ^ 53 = 2 ^ (k + 1) * 2 ^ (- e)) as Ep'.
        { rewrite <- Z.pow_add_r by lia. f_equal. lia. }
        repeat split; [done|nia| |left].
        -- rewrite Ep'. nia.
        -- rewrite Ep. nia.
Qed.

(** Rounding the scaled quotient to the nearer integer. *)
Lemma nearest_integer N D :
  0 < D → 0 ≤ N →
  let q := N / D in
  let r := N mod D in
  let q' := if (D <? 2 * r) || ((D =? 2 * r) && Z.odd q) then q + 1 else q in
  q ≤ q' ≤ q + 1 ∧ 2 * Z.abs (q' * D - N) ≤ D ∧ (r = 0 → q' = q).
Proof.
  intros HD HN q r q'.
  pose proof (Z.div_mod N D ltac:(lia)) as Hdm.
  pose proof (Z.mod_pos_bound N D HD) as Hr.
  fold q r in Hdm, Hr. subst q'.
  destruct (D <? 2 * r) eqn:H1; cbn [orb].
  - apply Z.ltb_lt in H1. repeat split; try lia; nia.
  - apply Z.ltb_ge in H1.
    destruct ((D =? 2 * r) && Z.odd q) eqn:H2.
    + apply andb_true_iff in H2 as [H2 _]. apply Z.eqb_eq in H2.
      repeat split; try lia; nia.
    + repeat split; try lia; nia.
Qed.

Lemma round_ratio_correct n d :
  0 < n → 0 < d →
  canonical (round_ratio n d).1 (round_ratio n d).2
  ∧ half_ulp_close (round_ratio n d).1 (round_ratio n d).2 n d.
Proof.
  intros Hn Hd.
  destruct (scaled_bounds n d Hn Hd) as (HD & HN & Hup & Hlo).
  unfold round_ratio.
  set (e := Z.max (floor_log2_ratio n d - 52) (-1074)) in *.
  assert (-1074 ≤ e) as He by (subst e; lia).
  set (N := if 0 <=? e then n else n * 2 ^ (- e)) in *.
  set (D := if 0 <=? e then d * 2 ^ e else d) in *.
  cbn zeta in HD, HN, Hup, Hlo.
  destruct (nearest_integer N D HD ltac:(lia)) as (Hq' & Hclose & _).
  cbn zeta in Hq', Hclose.
  set (q := N / D) in *.
  set (q' := if (D <? 2 * (N mod D)) || ((D =? 2 * (N mod D)) && Z.odd q) then q + 1 else q) in *.
  assert (0 ≤ q < 2 ^ 53) as Hq.
  { subst q. split; [apply Z.div_pos; lia|]. apply Z.div_lt_upper_bound; lia. }
  assert (2 ^ 52 ≤ q ∨ (e = -1074 ∧ q < 2 ^ 52)) as Hqlo.
  { destruct Hlo as [Hlo|[E Hlo]]; [left|right; split; [done|]].
    - subst q. apply Z.div_le_lower_bound; lia.
    - subst q. apply Z.div_lt_upper_bound; lia. }
  assert (2 ^ 53 = 2 * 2 ^ 52) as E53 by reflexivity.
  destruct (q' =? 2 ^ 53) eqn:Hn53; cbn [fst snd].
  - apply Z.eqb_eq in Hn53. split.
    + unfold canonical. split; [done|]. split; [lia|by left].
    + unfold half_ulp_close. rewrite Hn53 in Hclose. subst N D.
      destruct (0 <=? e) eqn:Hs.
      * apply Z.leb_le in Hs. rewrite (proj2 (Z.leb_le 0 (e + 1))) by lia.
        rewrite Z.pow_add_r by lia. change (2 ^ 1) with 2.
        assert (0 < 2 ^ e) as P by (apply Z.pow_pos_nonneg; lia).
        rewrite E53 in Hclose.
        generalize dependent (2 ^ e). generalize dependent (2 ^ 52). intros. nia.
      * apply Z.leb_gt in Hs.
        assert (2 ^ (- e) = 2 * 2 ^ (- (e + 1))) as Ep.
        { rewrite <- Z.pow_succ_r by lia. f_equal. lia. }
        assert (0 < 2 ^ (- (e + 1))) as P by (apply Z.pow_pos_nonneg; lia).
        rewrite Ep, E53 in Hclose.
        destruct (0 <=? e + 1) eqn:Hs1.
        -- apply Z.leb_le in Hs1. assert (e = -1) as -> by lia.
           change (2 ^ (-1 + 1)) with 1. change (2 ^ (- (-1 + 1))) with 1 in Hclose.
           generalize dependent (2 ^ 52). intros. nia.
        -- generalize dependent (2 ^ (- (e + 1))). generalize dependent (2 ^ 52).
           intros. nia.
  - apply Z.eqb_neq in Hn53. split.
    + unfold canonical. split; [lia|]. split; [done|].
      destruct Hqlo as [?|[? ?]]; [left; lia | by right].
    + unfold half_ulp_close. subst N D. destruct (0 <=? e); [|done].
      rewrite <- Z.mul_assoc, (Z.mul_comm (2 ^ e) d). lia.
Qed.

(** A quotient that is a binary64 number is returned as it is. *)
Lemma round_ratio_exact n d M E :
  0 < n → 0 < d → 0 < M < 2 ^ 53 → -1074 ≤ E →
  represents M E n d →
  represents (round_ratio n d).1 (round_ratio n d).2 n d.
Proof.
  intros Hn Hd HM HE Hrep.
  destruct (scaled_bounds n d Hn Hd) as (HD & HN & Hup & Hlo).
  destruct (floor_log2_ratio_spec n d Hn Hd) as [Hk1 Hk2].
  unfold round_ratio.
  set (k := floor_log2_ratio n d) in *.
  set (e := Z.max (k - 52) (-1074)) in *.
  set (N := if 0 <=? e then n else n * 2 ^ (- e)) in *.
  set (D := if 0 <=? e then d * 2 ^ e else d) in *.
  cbn zeta in HD, HN, Hup, Hlo, Hk1, Hk2.
  (* the exponent chosen is not above [E] *)
  assert (e ≤ E) as HeE.
  { subst e. apply Z.max_lub; [|done].
    destruct (Z_lt_le_dec (E + 52) k) as [Hgt|]; [exfalso|lia].
    assert (0 < 2 ^ (k - 53 - E)) as PK by (apply Z.pow_pos_nonneg; lia).
    assert (0 < 2 ^ 53) as P53 by done.
    unfold represents in Hrep. destruct (0 <=? E) eqn:Hs.
    - apply Z.leb_le in Hs. destruct (Hk1 ltac:(lia)) as [Hlo' _].
      assert (2 ^ k = 2 ^ 53 * 2 ^ (k - 53 - E) * 2 ^ E) as Ep.
      { rewrite <- !Z.pow_add_r by lia. f_equal. lia. }
      assert (0 < 2 ^ E) as PE by (apply Z.pow_pos_nonneg; lia).
      rewrite Ep, <- Hrep in Hlo'.
      assert (2 ^ 53 * 2 ^ (k - 53 - E) ≤ M); [|nia].
      apply (Z.mul_le_mono_pos_r _ _ (2 ^ E * d)); [nia|].
      rewrite !Z.mul_assoc. lia.
    - apply Z.leb_gt in Hs. destruct (Z_lt_le_dec k 0) as [Hk|Hk].
      + destruct (Hk2 Hk) as [Hlo' _].
        assert (2 ^ (- E) = 2 ^ 53 * 2 ^ (k - 53 - E) * 2 ^ (- k)) as Ep.
        { rewrite <- !Z.pow_add_r by lia. f_equal. lia. }
        assert (0 < 2 ^ (- k)) as Pk by (apply Z.pow_pos_nonneg; lia).
        assert (2 ^ 53 * 2 ^ (k - 53 - E) ≤ M); [|nia].
        apply (Z.mul_le_mono_pos_r _ _ (n * 2 ^ (- k))); [nia|].
        transitivity (M * d); [|apply Z.mul_le_mono_nonneg_l; lia].
        rewrite Hrep, Ep. lia.
      + destruct (Hk1 Hk) as [Hlo' _].
        assert (0 < 2 ^ (- E)) as PE by (apply Z.pow_pos_nonneg; lia).
        assert (2 ^ 53 ≤ 2 ^ k * 2 ^ (- E)) as Ep.
        { rewrite <- Z.pow_add_r by lia. apply Z.pow_le_mono_r; lia. }
        assert (0 < 2 ^ k) as Pk by (apply Z.pow_pos_nonneg; lia).
        assert (2 ^ 53 ≤ M); [|lia].
        apply (Z.mul_le_mono_pos_r _ _ d); [done|].
        rewrite Hrep.
        transitivity (2 ^ k * 2 ^ (- E) * d); [apply Z.mul_le_mono_nonneg_r; lia|].
        rewrite <- Z.mul_assoc, (Z.mul_comm (2 ^ (- E)) d), Z.mul_assoc.
        apply Z.mul_le_mono_nonneg_r; lia. }
  (* so the scaled quotient is an integer *)
  assert (N = M * 2 ^ (E - e) * D) as HND.
  { assert (0 < 2 ^ (E - e)) by (apply Z.pow_pos_nonneg; lia).
    unfold represents in Hrep. subst N D. destruct (0 <=? e) eqn:Hs.
    - apply Z.leb_le in Hs. rewrite (proj2 (Z.leb_le 0 E)) in Hrep by lia.
      rewrite <- Hrep. replace E with (E - e + e) at 1 by lia.
      rewrite Z.pow_add_r by lia. ring.
    - apply Z.leb_gt in Hs. destruct (0 <=? E) eqn:Hs'.
      + apply Z.leb_le in Hs'. rewrite <- Hrep.
        replace (E - e) with (E + - e) by lia. rewrite Z.pow_add_r by lia. ring.
      + apply Z.leb_gt in Hs'.
        replace (- e) with (- E + (E - e)) by lia. rewrite Z.pow_add_r by lia.
        rewrite Z.mul_assoc, <- Hrep. ring. }
  assert (N mod D = 0) as Hr0.
  { rewrite HND. apply Z.mod_mul. lia. }
  assert (N / D = M * 2 ^ (E - e)) as Hq.
  { rewrite HND. apply Z.div_mul. lia. }
  destruct (nearest_integer N D HD ltac:(lia)) as (_ & _ & Hsame).
  cbn zeta in Hsame. rewrite (Hsame Hr0). clear Hsame.
  assert (N = D * (N / D)) as Hx by (apply Z.div_exact; [lia|done]).
  assert (represents (N / D) e n d) as Hexact.
  { unfold represents. subst N D. destruct (0 <=? e) eqn:Hs.
    - etransitivity; [|symmetry; exact Hx]. ring.
    - etransitivity; [|symmetry; exact Hx]. ring. }
  destruct (N / D =? 2 ^ 53) eqn:H53; cbn [fst snd]; [|done].
  apply Z.eqb_eq in H53. unfold represents in Hexact |- *. rewrite H53 in Hexact.
  assert (2 ^ 53 = 2 * 2 ^ 52) as E53 by reflexivity.
  destruct (0 <=? e) eqn:Hs.
  - apply Z.leb_le in Hs. rewrite (proj2 (Z.leb_le 0 (e + 1))) by lia.
    rewrite Z.pow_add_r by lia. change (2 ^ 1) with 2. rewrite <- Hexact, E53. ring.
  - apply Z.leb_gt in Hs.
    assert (2 ^ (- e) = 2 * 2 ^ (- (e + 1))) as Ep.
    { rewrite <- Z.pow_succ_r by lia. f_equal. lia. }
    destruct (0 <=? e + 1) eqn:Hs1.
    + apply Z.leb_le in Hs1. assert (e = -1) as E1 by lia. rewrite E1 in *.
      change (2 ^ (-1 + 1)) with 1. change (2 ^ (- -1)) with 2 in Hexact.
      rewrite E53 in Hexact. lia.
    + rewrite Ep, E53 in Hexact. lia.
Qed.

(** The nearest multiple of [D] to [N] is nearer than any other. *)
Lemma nearest_multiple N D q k :
  0 < D → 2 * Z.abs (q * D - N) ≤ D → Z.abs (q * D - N) ≤ Z.abs (k * D - N).
Proof.
  intros HD Hq.
  destruct (Z.eq_dec k q) as [->|Hne]; [done|].
  assert (k * D - q * D ≤ - D ∨ D ≤ k * D - q * D) as Hfar by nia.
  lia.
Qed.

(** The value that [round_ratio] gives is at least as near to [n / d]
    as any binary64 number, in units of [2^-1074 / d]. *)
Lemma round_ratio_nearest n d m' x' :
  0 < n → 0 < d → canonical m' x' →
  Z.abs ((round_ratio n d).1 * 2 ^ ((round_ratio n d).2 + 1074) * d - n * 2 ^ 1074)
  ≤ Z.abs (m' * 2 ^ (x' + 1074) * d - n * 2 ^ 1074).
Proof.
  intros Hn Hd (Hm' & Hx' & Hnorm').
  destruct (scaled_bounds n d Hn Hd) as (HD & HN & Hup & Hlo).
  unfold round_ratio.
  set (e := Z.max (floor_log2_ratio n d - 52) (-1074)) in *.
  assert (-1074 ≤ e) as He by (subst e; lia).
  set (N := if 0 <=? e then n else n * 2 ^ (- e)) in *.
  set (D := if 0 <=? e then d * 2 ^ e else d) in *.
  cbn zeta in HD, HN, Hup, Hlo.
  destruct (nearest_integer N D HD ltac:(lia)) as (Hq' & Hclose & _).
  cbn zeta in Hq', Hclose.
  set (q := N / D) in *.
  set (q' := if (D <? 2 * (N mod D)) || ((D =? 2 * (N mod D)) && Z.odd q) then q + 1 else q) in *.
  set (U := 2 ^ (e + 1074)).
  set (P := 2 ^ 1074).
  assert (0 < U) as HU by (apply Z.pow_pos_nonneg; lia).
  assert (0 < P) as HP by (apply Z.pow_pos_nonneg; lia).
  (* the units of the two scales *)
  assert (∃ c, 0 < c ∧ c * D = U * d ∧ c * N = n * P) as (c & Hc & HcD & HcN).
  { subst N D U P. destruct (0 <=? e) eqn:Hs.
    - apply Z.leb_le in Hs. exists (2 ^ 1074). split; [done|].
      rewrite Z.pow_add_r by lia. split; ring.
    - apply Z.leb_gt in Hs. exists (2 ^ (e + 1074)). split; [done|]. split; [done|].
      replace 1074 with (e + 1074 + - e) at 2 by lia.
      rewrite (Z.pow_add_r 2 (e + 1074) (- e)) by lia. ring. }
  assert (∀ k, k * U * d - n * P = c * (k * D - N)) as Hunit.
  { intros k. rewrite Z.mul_sub_distr_l, HcN.
    rewrite (Z.mul_comm k D), Z.mul_assoc, HcD. ring. }
  (* the value returned is [q' * U] *)
  assert ((if q' =? 2 ^ 53 then (2 ^ 52, e + 1) else (q', e)).1
          * 2 ^ ((if q' =? 2 ^ 53 then (2 ^ 52, e + 1) else (q', e)).2 + 1074)
          = q' * U) as ->.
  { destruct (q' =? 2 ^ 53) eqn:H53; cbn [fst snd]; [|done].
    apply Z.eqb_eq in H53. rewrite H53. subst U.
    replace (e + 1 + 1074) with (1 + (e + 1074)) by lia.
    rewrite (Z.pow_add_r 2 1 (e + 1074)) by lia.
    change (2 ^ 53) with (2 ^ 52 * 2 ^ 1). ring. }
  fold P. rewrite Hunit.
  assert (∀ k, c * Z.abs (q' * D - N) ≤ c * Z.abs (k * D - N)) as Hnear.
  { intros k. apply Z.mul_le_mono_nonneg_l; [lia|]. by apply nearest_multiple. }
  rewrite Z.abs_mul, (Z.abs_eq c) by lia.
  destruct (Z_le_gt_dec e x') as [Hge|Hlt].
  - (* a multiple of the unit *)
    assert (m' * 2 ^ (x' + 1074) = m' * 2 ^ (x' - e) * U) as ->.
    { subst U. rewrite <- Z.mul_assoc, <- Z.pow_add_r by lia. do 2 f_equal. lia. }
    rewrite Hunit, Z.abs_mul, (Z.abs_eq c) by lia. apply Hnear.
  - (* a number below the binade *)
    destruct Hlo as [Hlo|[? _]]; [|lia].
    set (W := 2 ^ (x' + 1074)).
    assert (0 < W) as HW by (apply Z.pow_pos_nonneg; lia).
    assert (U = W * 2 ^ (e - x')) as EU.
    { subst U W. rewrite <- Z.pow_add_r by lia. f_equal. lia. }
    assert (2 ≤ 2 ^ (e - x')) as HG.
    { change 2 with (2 ^ 1) at 1. apply Z.pow_le_mono_r; lia. }
    assert (m' * W ≤ 2 ^ 52 * U) as Hbelow.
    { rewrite EU. change (2 ^ 53) with (2 * 2 ^ 52) in Hm'.
      generalize dependent (2 ^ (e - x')). generalize dependent (2 ^ 52).
      intros. nia. }
    assert (m' * W * d ≤ 2 ^ 52 * U * d) as Hbelow'.
    { apply Z.mul_le_mono_nonneg_r; lia. }
    specialize (Hnear (2 ^ 52)). specialize (Hunit (2 ^ 52)).
    assert (0 ≤ c * (N - 2 ^ 52 * D)) as Hpos by nia.
    assert (c * Z.abs (2 ^ 52 * D - N) = n * P - 2 ^ 52 * U * d) as E1.
    { rewrite Z.abs_neq by lia. lia. }
    rewrite E1 in Hnear. lia.
Qed.

Lemma true_div_nearest a b x y :
  true_div a b = Ok x → binary64 y → distance a b x ≤ distance a b y.
Proof.
  unfold true_div, distance, scaled.
  destruct (b =? 0) eqn:Hb; [discriminate|]. apply Z.eqb_neq in Hb.
  destruct (a =? 0) eqn:Ha.
  { apply Z.eqb_eq in Ha as ->. intros [= <-] _. cbn [neg man exp].
    rewrite Z.mul_0_l, Z.mul_0_r, Z.mul_0_l. cbn. apply Z.abs_nonneg. }
  apply Z.eqb_neq in Ha.
  pose proof (round_ratio_nearest (Z.abs a) (Z.abs b) (man y) (exp y)
                ltac:(lia) ltac:(lia)) as Hsame.
  pose proof (round_ratio_nearest (Z.abs a) (Z.abs b) 0 (-1074)
                ltac:(lia) ltac:(lia)) as Hzero.
  destruct (round_ratio (Z.abs a) (Z.abs b)) as [m e]. cbn [fst snd] in *.
  destruct (971 <? e); [discriminate|]. intros [= <-] [Hy _]. cbn [neg man exp].
  specialize (Hsame Hy).
  specialize (Hzero ltac:(split; [done|split; [done|by right]])).
  destruct Hy as ([Hy0 _] & Hyx & _).
  assert (0 ≤ man y * 2 ^ (exp y + 1074)) as Hvy.
  { apply Z.mul_nonneg_nonneg; [done|]. apply Z.pow_nonneg. lia. }
  assert (0 < 2 ^ 1074) as HP by done.
  revert Hsame Hzero Hvy HP.
  generalize (man y * 2 ^ (exp y + 1074)). generalize (m * 2 ^ (e + 1074)).
  change (0 * 2 ^ (-1074 + 1074)) with 0.
  generalize (2 ^ 1074). intros P Vx Vy Hsame Hzero Hvy HP.
  assert (0 ≤ Vy * Z.abs b) as Hvb by (apply Z.mul_nonneg_nonneg; lia).
  assert (0 ≤ Z.abs a * P) as Hap by (apply Z.mul_nonneg_nonneg; lia).
  remember (Z.abs a) as na eqn:Ena. remember (Z.abs b) as nb eqn:Enb.
  destruct (Z.ltb_spec a 0), (Z.ltb_spec b 0);
    [assert (a = - na) as Ea by lia | assert (a = - na) as Ea by lia
    |assert (a = na) as Ea by lia | assert (a = na) as Ea by lia];
    [assert (b = - nb) as Eb by lia | assert (b = nb) as Eb by lia
    |assert (b = - nb) as Eb by lia | assert (b = nb) as Eb by lia];
    rewrite Ea, Eb; clear Ena Enb Ea Eb;
    destruct (neg y); cbn [xorb]; lia.
Qed.

(** Half a unit of the last place is not enough to be nearest: below a
    power of two the floats are twice as dense. *)
Lemma nearest_float_below_power :
  half_ulp_close (2 ^ 52) 3 (2 ^ 55 - 3) 1
  ∧ ¬ nearest_float (2 ^ 55 - 3) 1 (Float false (2 ^ 52) 3)
  ∧ true_div (2 ^ 55 - 3) 1 = Ok (Float false (2 ^ 53 - 1) 2).
Proof.
  split; [vm_compute; discriminate|]. split; [|reflexivity].
  intros (_ & _ & _ & _ & H).
  specialize (H (Float false (2 ^ 53 - 1) 2)).
  assert (binary64 (Float false (2 ^ 53 - 1) 2)) as Hy.
  { split; [|cbn; lia]. split; [cbn; lia|]. split; [cbn; lia|]. left. cbn. lia. }
  specialize (H Hy). vm_compute in H. by apply H.
Qed.

(** What [true_div] returns is a float nearest to the quotient. *)
Lemma true_div_correct a b x :
  true_div a b = Ok x → nearest_float a b x.
Proof.
  intros H. unfold nearest_float.
  assert (∀ y, binary64 y → distance a b x ≤ distance a b y) as Hnear.
  { intros y. by apply true_div_nearest. }
  revert H. unfold true_div.
  destruct (b =? 0) eqn:Hb; [discriminate|]. apply Z.eqb_neq in Hb.
  destruct (a =? 0) eqn:Ha.
  - apply Z.eqb_eq in Ha. subst a. intros [= Hx]. rewrite <- Hx in *. cbn [neg man exp].
    split; [done|]. split; [|split; [done|split; [|done]]].
    + unfold canonical. split; [done|]. split; [done|by right].
    + unfold half_ulp_close. cbn. lia.
  - apply Z.eqb_neq in Ha.
    destruct (round_ratio_correct (Z.abs a) (Z.abs b) ltac:(lia) ltac:(lia))
      as [Hcan Hclose].
    destruct (round_ratio (Z.abs a) (Z.abs b)) as [m e]. cbn [fst snd] in *.
    destruct (971 <? e) eqn:He; [discriminate|]. apply Z.ltb_ge in He.
    intros [= Hx]. rewrite <- Hx in *. by cbn [neg man exp].
Qed.

(** A quotient that is a float is returned as it is. *)
Lemma true_div_exact a b :
  b ≠ 0 → float_quotient a b →
  ∃ x, true_div a b = Ok x ∧ exact_float a b x.
Proof.
  intros Hb (M & E & HM & HE & Hrep). unfold exact_float, true_div.
  rewrite (proj2 (Z.eqb_neq b 0) Hb).
  destruct (a =? 0) eqn:Ha.
  - apply Z.eqb_eq in Ha as ->. eexists. split; [done|]. split; reflexivity.
  - apply Z.eqb_neq in Ha.
    assert (0 < M) as HM0.
    { destruct (Z.eq_dec M 0) as [->|]; [|lia]. exfalso.
      unfold represents in Hrep. destruct (0 <=? E) eqn:Hs; [lia|].
      apply Z.leb_gt in Hs.
      assert (0 < 2 ^ (- E)) by (apply Z.pow_pos_nonneg; lia). nia. }
    pose proof (round_ratio_exact (Z.abs a) (Z.abs b) M E
                  ltac:(lia) ltac:(lia) ltac:(lia) ltac:(lia) Hrep) as Hex.
    destruct (round_ratio_correct (Z.abs a) (Z.abs b) ltac:(lia) ltac:(lia))
      as [(Hm & Hx & Hnorm) _].
    destruct (round_ratio (Z.abs a) (Z.abs b)) as [m x]. cbn [fst snd] in *.
    destruct (971 <? x) eqn:Hov; [exfalso|eexists; split; [done|]; by split].
    apply Z.ltb_lt in Hov. destruct Hnorm as [Hnorm|]; [|lia].
    unfold represents in Hex, Hrep.
    rewrite (proj2 (Z.leb_le 0 x)) in Hex by lia.
    assert (2 ^ x = 2 ^ 972 * 2 ^ (x - 972)) as Ex.
    { rewrite <- Z.pow_add_r by lia. f_equal. lia. }
    assert (0 < 2 ^ (x - 972)) as Px by (apply Z.pow_pos_nonneg; lia).
    assert (2 ^ 1024 = 2 ^ 52 * 2 ^ 972) as E1024 by reflexivity.
    assert (2 ^ 1024 * Z.abs b ≤ Z.abs a) as Hbig.
    { rewrite <- Hex, Ex, E1024.
      apply Z.mul_le_mono_nonneg_r; [lia|].
      rewrite Z.mul_assoc.
      transitivity (2 ^ 52 * 2 ^ 972 * 1); [lia|].
      apply Z.mul_le_mono_nonneg; lia. }
    assert (Z.abs a < 2 ^ 1024 * Z.abs b); [|lia].
    destruct (0 <=? E) eqn:Hs.
    + apply Z.leb_le in Hs. rewrite <- Hrep.
      apply Z.mul_lt_mono_pos_r; [lia|].
      assert (2 ^ E ≤ 2 ^ 971) by (apply Z.pow_le_mono_r; lia).
      assert (0 < 2 ^ E) by (apply Z.pow_pos_nonneg; lia).
      change (2 ^ 1024) with (2 ^ 53 * 2 ^ 971).
      apply Z.lt_le_trans with (2 ^ 53 * 2 ^ E);
        [apply Z.mul_lt_mono_pos_r; lia | apply Z.mul_le_mono_nonneg_l; lia].
    + apply Z.leb_gt in Hs.
      assert (0 < 2 ^ (- E)) by (apply Z.pow_pos_nonneg; lia).
      assert (Z.abs a ≤ Z.abs a * 2 ^ (- E)) by nia.
      assert (M * Z.abs b < 2 ^ 1024 * Z.abs b); [|lia].
      apply Z.mul_lt_mono_pos_r; [lia|].
      assert (2 ^ 53 < 2 ^ 1024) by (apply Z.pow_lt_mono_r; lia). lia.
Qed.

(** ** The tables *)

(** The four severities and the names they print as. *)
Lemma nagiosStatus_names :
  nagiosStatus !! str_of_int 0 = Some "OK"
  ∧ nagiosStatus !! str_of_int 1 = Some "WARNING"
  ∧ nagiosStatus !! str_of_int 2 = Some "CRITICAL"
  ∧ nagiosStatus !! str_of_int 3 = Some "UNKNOWN".
Proof. repeat split. Qed.

(** ** The operational-status check *)

(** A code outside 1..8 has no entry in the table. *)
Lemma Os10CmnOperStatus_unmapped (code : Z) :
  ¬ (1 ≤ code ≤ 8) → Os10CmnOperStatus !! str_of_int code = None.
Proof.
  intros Hout. unfold Os10CmnOperStatus.
  apply not_elem_of_list_to_map_1. cbn.
  rewrite !elem_of_cons, elem_of_nil.
  intros H.
  assert (∀ k, 1 ≤ k ≤ 8 → str_of_int code ≠ str_of_int k) as Hne.
  { intros k Hk Heq. apply str_of_int_inj in Heq. lia. }
  destruct H as [H|[H|[H|[H|[H|[H|[H|[H|[]]]]]]]]].
  - by apply (Hne 1).
  - by apply (Hne 2).
  - by apply (Hne 3).
  - by apply (Hne 4).
  - by apply (Hne 5).
  - by apply (Hne 6).
  - by apply (Hne 7).
  - by apply (Hne 8).
Qed.

(** No state of the table is printed as [None]. *)
Lemma Os10CmnOperStatus_named (key state : string) :
  Os10CmnOperStatus !! key = Some state → state ≠ "None".
Proof.
  unfold Os10CmnOperStatus. intros H.
  apply elem_of_list_to_map_2 in H. cbn in H.
  rewrite !elem_of_cons, elem_of_nil in H.
  intros ->.
  repeat (destruct H as [H|H]; [discriminate|]). done.
Qed.

(** Every code from 1 to 8 has its state in the table. *)
Lemma Os10CmnOperStatus_mapped (code : Z) :
  1 ≤ code ≤ 8 → ∃ state, Os10CmnOperStatus !! str_of_int code = Some state.
Proof.
  intros H.
  assert (code = 1 ∨ code = 2 ∨ code = 3 ∨ code = 4
          ∨ code = 5 ∨ code = 6 ∨ code = 7 ∨ code = 8) as Hc by lia.
  destruct Hc as [-> | [-> | [-> | [-> | [-> | [-> | [-> | ->]]]]]]];
    eexists; vm_compute; reflexivity.
Qed.

Lemma findings_from_cons hw start code codes :
  findings_from hw start (code :: codes)
  = finding hw start code :: findings_from hw (start + 1) codes.
Proof.
  unfold findings_from. cbn. rewrite Z.add_0_r. f_equal.
  apply imap_ext. intros k c _. cbn. f_equal. lia.
Qed.

Lemma failures_cons code codes :
  failures (code :: codes)
  = (if code =? 4 then 0 else if negb (code =? 1) then 1 else 0) + failures codes.
Proof.
  unfold failures. rewrite filter_cons.
  destruct (code =? 4) eqn:H4; [|destruct (code =? 1) eqn:H1]; cbn;
    case_decide; cbn; lia.
Qed.

(** The loop, in closed form. *)
Lemma oper_status_loop_spec hw vals : ∀ codes index ret_code messages count_fail,
  statuses vals = Ok codes →
  oper_status_loop hw index vals ret_code messages count_fail
  = Ok (if bool_decide (4 ∈ codes) then 3 else ret_code,
        messages ++ findings_from hw index codes,
        count_fail + failures codes).
Proof.
  unfold statuses.
  induction vals as [|item rest IH]; intros codes index rc msgs cf H.
  - rewrite (mapM_Ok_nil _ _ H). cbn.
    rewrite bool_decide_eq_false_2 by apply not_elem_of_nil.
    by rewrite app_nil_r, Z.add_0_r.
  - destruct (mapM_Ok_cons _ _ _ _ H) as (code & codes' & -> & Hc & H').
    rewrite findings_from_cons, failures_cons.
    cbn [oper_status_loop].
    unfold status_of in Hc.
    destruct (decode_item item) as [text|e]; [|discriminate].
    cbn [mbind result_bind] in Hc |- *. rewrite Hc. cbn [mbind result_bind].
    rewrite (IH _ _ _ _ _ H').
    rewrite <- app_assoc. cbn [app]. fold (finding hw index code).
    f_equal. f_equal; [f_equal|].
    + destruct (code =? 4) eqn:H4.
      * apply Z.eqb_eq in H4 as ->.
        rewrite (bool_decide_eq_true_2 (4 ∈ 4 :: codes')) by apply list_elem_of_here.
        by destruct (bool_decide (4 ∈ codes')).
      * apply Z.eqb_neq in H4.
        rewrite (bool_decide_ext (4 ∈ code :: codes') (4 ∈ codes')); [done|].
        rewrite elem_of_cons. split; [intros [?|?]; [congruence|done] | by right].
    + destruct (code =? 4), (code =? 1); cbn; lia.
Qed.

(** The whole check, in closed form, on a walk that gave readings. *)
Lemma get_snmp_oper_status_spec s oid hw warn crit vals codes :
  walk s [Varbind1 oid] = Some vals → vals ≠ [] → statuses vals = Ok codes →
  get_snmp_oper_status s oid hw warn crit
  = Ok (if bool_decide (4 ∈ codes) then (3, findings hw codes, [])
        else if failures codes =? 0
             then (0, ("All " +:+ hw +:+ " (s) OK") :: findings hw codes, [])
             else (let by_warn := if failures codes <? warn then 1 else 0 in
                   if failures codes <? crit then 2 else by_warn,
                   ("Failed or error found for " +:+ hw) :: findings hw codes, [])).
Proof.
  intros Hw Hne Hs. unfold get_snmp_oper_status. rewrite Hw.
  destruct vals as [|item rest]; [done|]. cbn [not_vals default].
  rewrite (oper_status_loop_spec _ _ _ _ _ _ _ Hs). cbn.
  unfold findings.
  rewrite Z.add_0_l.
  destruct (bool_decide (4 ∈ codes)); cbn; [done|].
  by destruct (failures codes =? 0).
Qed.

Lemma statuses_nonempty vals codes :
  statuses vals = Ok codes → codes ≠ [] → vals ≠ [].
Proof.
  intros H Hne ->. apply mapM_Ok_nil in H. by subst.
Qed.

Lemma failures_nil : failures [] = 0.
Proof. reflexivity. Qed.

Lemma findings_lookup hw codes (k : nat) :
  findings hw codes !! k
  = (fun code => finding hw (Z.of_nat k + 1) code) <$> codes !! k.
Proof.
  unfold findings, findings_from. rewrite list_lookup_imap.
  destruct (codes !! k); cbn; [|done]. do 2 f_equal. lia.
Qed.

Lemma failures_all_up codes : Forall (fun c => c = 1) codes → failures codes = 0.
Proof.
  induction 1 as [|c codes -> _ IH]; [done|].
  rewrite failures_cons, IH. reflexivity.
Qed.

Lemma all_up_no_unknown codes : Forall (fun c => c = 1) codes → 4 ∉ codes.
Proof.
  rewrite Forall_forall. intros H Hin. by apply H in Hin.
Qed.

(** C1: with no reading of code 4 and a positive failure counter, the
    severity is first WARNING when the counter is below [warn], and then
    CRITICAL, whatever the first test gave, when the counter is below
    [crit]; so with [warn = 1], [crit = 2] and one failing reading the
    severity is CRITICAL. *)
Theorem oper_status_warn_then_crit s oid hw warn crit vals codes :
  walk s [Varbind1 oid] = Some vals → statuses vals = Ok codes →
  4 ∉ codes → 0 < failures codes →
  severity (get_snmp_oper_status s oid hw warn crit)
  = Some (let after_warn := if failures codes <? warn then 1 else 0 in
          if failures codes <? crit then 2 else after_warn)
  ∧ (failures codes = 1 →
     severity (get_snmp_oper_status s oid hw 1 2) = Some 2).
Proof.
  intros Hw Hs H4 Hf.
  assert (vals ≠ []) as Hne.
  { apply (statuses_nonempty _ _ Hs). intros ->. rewrite failures_nil in Hf. lia. }
  split; [|intros H1];
    rewrite (get_snmp_oper_status_spec _ _ _ _ _ _ _ Hw Hne Hs);
    rewrite bool_decide_eq_false_2 by done;
    (destruct (failures codes =? 0) eqn:H0; [apply Z.eqb_eq in H0; lia|]);
    cbn [severity]; [done|].
  by rewrite H1.
Qed.

Lemma oper_status_warn_then_crit_witness :
  severity (get_snmp_oper_status (answering (readings ["1"; "1"; "2"])) "oid" "fan" 1 2)
  = Some 2.
Proof.
  refine (proj2 (oper_status_warn_then_crit
            (answering (readings ["1"; "1"; "2"])) "oid" "fan" 1 2
            [Some "1"; Some "1"; Some "2"] [1; 1; 2] _ _ _ _) _).
  - reflexivity.
  - reflexivity.
  - rewrite !elem_of_cons, elem_of_nil. lia.
  - reflexivity.
  - reflexivity.
Defined.

(** C4: with no reading of code 4 and a positive failure counter that
    is neither below [warn] nor below [crit], the severity stays OK while
    the summary "Failed or error found for ..." is still put in front. *)
Theorem oper_status_ok_beyond_thresholds s oid hw warn crit vals codes :
  walk s [Varbind1 oid] = Some vals → statuses vals = Ok codes →
  4 ∉ codes → 0 < failures codes →
  warn ≤ failures codes → crit ≤ failures codes →
  get_snmp_oper_status s oid hw warn crit
  = Ok (0, ("Failed or error found for " +:+ hw) :: findings hw codes, []).
Proof.
  intros Hw Hs H4 Hf Hwarn Hcrit.
  assert (vals ≠ []) as Hne.
  { apply (statuses_nonempty _ _ Hs). intros ->. rewrite failures_nil in Hf. lia. }
  rewrite (get_snmp_oper_status_spec _ _ _ _ _ _ _ Hw Hne Hs).
  rewrite bool_decide_eq_false_2 by done.
  destruct (failures codes =? 0) eqn:H0; [apply Z.eqb_eq in H0; lia|].
  destruct (failures codes <? warn) eqn:H1; [apply Z.ltb_lt in H1; lia|].
  destruct (failures codes <? crit) eqn:H2; [apply Z.ltb_lt in H2; lia|].
  reflexivity.
Qed.

Lemma oper_status_ok_beyond_thresholds_witness :
  get_snmp_oper_status (answering (readings ["1"; "2"])) "oid" "PSU" 0 1
  = Ok (0, ["Failed or error found for PSU"; "PSU #1 reported as up";
            "PSU #2 reported as down"], []).
Proof.
  refine (oper_status_ok_beyond_thresholds
            (answering (readings ["1"; "2"])) "oid" "PSU" 0 1
            [Some "1"; Some "2"] [1; 2] _ _ _ _ _ _).
  - reflexivity.
  - reflexivity.
  - rewrite !elem_of_cons, elem_of_nil. lia.
  - reflexivity.
  - vm_compute. discriminate.
  - vm_compute. discriminate.
Defined.

(** C5: a reading of code 4 anywhere in the list makes the severity
    UNKNOWN whatever [warn] and [crit] are; the findings are the
    per-component ones, one for every reading, with no summary in front;
    and a loop that has reached UNKNOWN ends with UNKNOWN on any further
    readings. *)
Theorem oper_status_unknown_sticky s oid hw warn crit vals codes :
  walk s [Varbind1 oid] = Some vals → statuses vals = Ok codes → 4 ∈ codes →
  get_snmp_oper_status s oid hw warn crit = Ok (3, findings hw codes, [])
  ∧ length (findings hw codes) = length vals
  ∧ (∀ (k : nat) code, codes !! k = Some code →
       findings hw codes !! k = Some (finding hw (Z.of_nat k + 1) code))
  ∧ (∀ later later_codes index messages count_fail,
       statuses later = Ok later_codes →
       ∃ messages' count_fail',
         oper_status_loop hw index later 3 messages count_fail
         = Ok (3, messages', count_fail')).
Proof.
  intros Hw Hs H4.
  assert (vals ≠ []) as Hne.
  { apply (statuses_nonempty _ _ Hs). intros ->. by apply elem_of_nil in H4. }
  repeat split.
  - rewrite (get_snmp_oper_status_spec _ _ _ _ _ _ _ Hw Hne Hs).
    by rewrite bool_decide_eq_true_2.
  - unfold findings, findings_from. rewrite length_imap.
    by apply mapM_Ok_length in Hs.
  - intros k code Hk. by rewrite findings_lookup, Hk.
  - intros later later_codes index messages count_fail Hl.
    rewrite (oper_status_loop_spec _ _ _ _ _ _ _ Hl).
    destruct (bool_decide (4 ∈ later_codes)); eauto.
Qed.

Lemma oper_status_unknown_sticky_witness :
  get_snmp_oper_status (answering (readings ["2"; "4"; "1"])) "oid" "fan" 1 2
  = Ok (3, ["fan #1 reported as down"; "fan #2 reported as unknown";
            "fan #3 reported as up"], []).
Proof.
  refine (proj1 (oper_status_unknown_sticky
            (answering (readings ["2"; "4"; "1"])) "oid" "fan" 1 2
            [Some "2"; Some "4"; Some "1"] [2; 4; 1] _ _ _)).
  - reflexivity.
  - reflexivity.
  - rewrite !elem_of_cons. lia.
Defined.

(** C7, as the code has it: on a walk that gave readings, all of code 1,
    the severity is OK and the findings are the summary
    "All {hw_type} (s) OK", with a blank before "(s)", followed by one
    finding per reading. *)
Theorem oper_status_all_up s oid hw warn crit vals codes :
  walk s [Varbind1 oid] = Some vals → vals ≠ [] → statuses vals = Ok codes →
  Forall (fun c => c = 1) codes →
  get_snmp_oper_status s oid hw warn crit
  = Ok (0, ("All " +:+ hw +:+ " (s) OK") :: findings hw codes, [])
  ∧ length (findings hw codes) = length vals.
Proof.
  intros Hw Hne Hs Hall. split.
  - rewrite (get_snmp_oper_status_spec _ _ _ _ _ _ _ Hw Hne Hs).
    rewrite bool_decide_eq_false_2 by by apply all_up_no_unknown.
    by rewrite (failures_all_up _ Hall).
  - unfold findings, findings_from. rewrite length_imap.
    by apply mapM_Ok_length in Hs.
Qed.

Lemma oper_status_all_up_witness :
  get_snmp_oper_status (answering (readings ["1"; "1"])) "oid" "PSU" 0 1
  = Ok (0, ["All PSU (s) OK"; "PSU #1 reported as up"; "PSU #2 reported as up"], []).
Proof.
  refine (proj1 (oper_status_all_up
            (answering (readings ["1"; "1"])) "oid" "PSU" 0 1
            [Some "1"; Some "1"] [1; 1] _ _ _ _)).
  - reflexivity.
  - discriminate.
  - reflexivity.
  - repeat constructor.
Defined.

(** C7, as the specification words the summary ("All fan(s) OK"): the
    first finding of a check of one fan that is up is another text. *)
Lemma oper_status_all_up_summary_differs :
  get_snmp_oper_status (answering (readings ["1"])) "oid" "fan" 1 2
  = Ok (0, ["All fan (s) OK"; "fan #1 reported as up"], [])
  ∧ messages_of (get_snmp_oper_status (answering (readings ["1"])) "oid" "fan" 1 2)
      !! 0%nat ≠ Some "All fan(s) OK".
Proof. split; [reflexivity | discriminate]. Qed.

(** C9: a reading whose code is outside 1..8 does not make the check
    fail: the table has no entry for it, its finding is there all the
    same, labelled [None]; this label is its own: no state of the table
    is [None], and the finding on a reading with a code from 1 to 8
    carries the state of that code and not [None]; and the severity is
    UNKNOWN only when some reading has code 4. *)
Theorem oper_status_unmapped_code s oid hw warn crit vals codes (k : nat) code :
  walk s [Varbind1 oid] = Some vals → statuses vals = Ok codes →
  codes !! k = Some code → ¬ (1 ≤ code ≤ 8) →
  Os10CmnOperStatus !! str_of_int code = None
  ∧ (∀ key state, Os10CmnOperStatus !! key = Some state → state ≠ "None")
  ∧ (∀ (j : nat) c, codes !! j = Some c → 1 ≤ c ≤ 8 →
       ∃ state, Os10CmnOperStatus !! str_of_int c = Some state ∧ state ≠ "None"
         ∧ findings hw codes !! j
           = Some (hw +:+ " #" +:+ str_of_int (Z.of_nat j + 1)
                   +:+ " reported as " +:+ state)
         ∧ findings hw codes !! j
           ≠ Some (hw +:+ " #" +:+ str_of_int (Z.of_nat j + 1) +:+ " reported as None"))
  ∧ ∃ ret_code summary,
      get_snmp_oper_status s oid hw warn crit
      = Ok (ret_code, summary ++ findings hw codes, [])
      ∧ findings hw codes !! k
        = Some (hw +:+ " #" +:+ str_of_int (Z.of_nat k + 1) +:+ " reported as None")
      ∧ (4 ∉ codes → ret_code ≠ 3)
      ∧ (4 ∈ codes → ret_code = 3).
Proof.
  intros Hw Hs Hk Hout.
  assert (vals ≠ []) as Hne.
  { apply (statuses_nonempty _ _ Hs). by intros ->. }
  split; [by apply Os10CmnOperStatus_unmapped|].
  split; [apply Os10CmnOperStatus_named|].
  split.
  { intros j c Hj Hc.
    destruct (Os10CmnOperStatus_mapped c Hc) as [state Hstate].
    pose proof (Os10CmnOperStatus_named _ _ Hstate) as Hnamed.
    assert (findings hw codes !! j
            = Some (hw +:+ " #" +:+ str_of_int (Z.of_nat j + 1)
                    +:+ " reported as " +:+ state)) as Hf.
    { rewrite findings_lookup, Hj. cbn [fmap option_fmap option_map]. unfold finding.
      by rewrite Hstate. }
    exists state. split; [done|]. split; [done|]. split; [done|].
    rewrite Hf. intros [= Heq]. do 3 apply String.app_inj in Heq.
    by apply (String.app_inj " reported as " state "None") in Heq. }
  assert (findings hw codes !! k
          = Some (hw +:+ " #" +:+ str_of_int (Z.of_nat k + 1) +:+ " reported as None"))
    as Hf.
  { rewrite findings_lookup, Hk. cbn [fmap option_fmap option_map]. unfold finding.
    by rewrite (Os10CmnOperStatus_unmapped _ Hout). }
  rewrite (get_snmp_oper_status_spec _ _ _ _ _ _ _ Hw Hne Hs).
  destruct (bool_decide (4 ∈ codes)) eqn:H4.
  - exists 3, []. apply bool_decide_eq_true in H4. by repeat split.
  - apply bool_decide_eq_false in H4.
    destruct (failures codes =? 0).
    + exists 0, ["All " +:+ hw +:+ " (s) OK"]. by repeat split.
    + eexists _, ["Failed or error found for " +:+ hw].
      repeat split; [done| |done].
      intros _. cbn. destruct (failures codes <? crit); [done|].
      by destruct (failures codes <? warn).
Qed.

Lemma oper_status_unmapped_code_witness :
  (∃ state, Os10CmnOperStatus !! str_of_int 1 = Some state ∧ state ≠ "None"
     ∧ findings "fan" [1; 9; 0] !! 0%nat
       = Some ("fan" +:+ " #" +:+ str_of_int (Z.of_nat 0 + 1) +:+ " reported as " +:+ state)
     ∧ findings "fan" [1; 9; 0] !! 0%nat
       ≠ Some ("fan" +:+ " #" +:+ str_of_int (Z.of_nat 0 + 1) +:+ " reported as None"))
  ∧ ∃ ret_code summary,
    get_snmp_oper_status (answering (readings ["1"; "9"; "0"])) "oid" "fan" 1 2
    = Ok (ret_code, summary ++ findings "fan" [1; 9; 0], [])
    ∧ findings "fan" [1; 9; 0] !! 1%nat = Some "fan #2 reported as None"
    ∧ (4 ∉ [1; 9; 0] → ret_code ≠ 3)
    ∧ (4 ∈ [1; 9; 0] → ret_code = 3).
Proof.
  pose proof (oper_status_unmapped_code
            (answering (readings ["1"; "9"; "0"])) "oid" "fan" 1 2
            [Some "1"; Some "9"; Some "0"] [1; 9; 0] 1 9
            eq_refl eq_refl eq_refl ltac:(lia)) as (_ & _ & Hrec & Hrest).
  split; [|exact Hrest].
  apply (Hrec 0%nat 1); [reflexivity|lia].
Defined.

(** ** The temperature check *)

Lemma temperature_severity_snoc warn crit before t :
  temperature_severity warn crit (before ++ [t])
  = if raises_to_critical warn crit before t then 2
    else if raises_to_warning warn crit before t then 1
    else temperature_severity warn crit before.
Proof.
  unfold raises_to_warning, raises_to_critical, temperature_severity.
  rewrite !existsb_app. cbn [existsb]. rewrite !orb_false_r.
  destruct (existsb (Z.ltb crit) before), (existsb (Z.ltb warn) before),
    (crit <? t), (warn <? t); reflexivity.
Qed.

Lemma temperature_findings_cons warn crit before temp vals t temps :
  temperature_findings warn crit before (temp :: vals) (t :: temps)
  = temperature_finding warn crit before temp t
    :: temperature_findings warn crit (before ++ [t]) vals temps.
Proof.
  unfold temperature_findings. cbn [zip zip_with]. rewrite imap_cons.
  cbn [take]. rewrite app_nil_r. f_equal.
  apply imap_ext. intros k [temp' t'] _. cbn. by rewrite <- app_assoc.
Qed.

Lemma temperature_metrics_cons warn crit before temp vals t temps :
  temperature_metrics warn crit before (temp :: vals) (t :: temps)
  = (if raises_severity warn crit before t then []
     else [metric warn crit (Z.of_nat (length before) + 1) temp])
    ++ temperature_metrics warn crit (before ++ [t]) vals temps.
Proof.
  unfold temperature_metrics. cbn [zip zip_with]. rewrite imap_cons.
  cbn [mjoin list_join take]. rewrite app_nil_r, Nat.add_0_r. f_equal.
  f_equal. apply imap_ext. intros k [temp' t'] _. cbn.
  rewrite <- app_assoc. cbn [app]. rewrite length_app. cbn [length].
  by replace (length before + 1 + k)%nat with (length before + S k)%nat by lia.
Qed.

(** The loop, in closed form: entered after the readings [before], with
    the severity they have reached. *)
Lemma temperature_loop_spec warn crit vals : ∀ temps before messages perf_data,
  temperatures vals = Ok temps →
  temperature_loop warn crit (Z.of_nat (length before) + 1) vals
    (temperature_severity warn crit before) messages perf_data
  = Ok (temperature_severity warn crit (before ++ temps),
        messages ++ temperature_findings warn crit before vals temps,
        perf_data ++ temperature_metrics warn crit before vals temps).
Proof.
  unfold temperatures.
  induction vals as [|temp rest IH]; intros temps before msgs perf H.
  - rewrite (mapM_Ok_nil _ _ H). cbn. by rewrite !app_nil_r.
  - destruct (mapM_Ok_cons _ _ _ _ H) as (t & temps' & -> & Ht & H').
    rewrite temperature_findings_cons, temperature_metrics_cons.
    cbn [temperature_loop]. rewrite Ht. cbn [mbind result_bind].
    specialize (IH temps' (before ++ [t])).
    rewrite length_app in IH. cbn [length] in IH.
    replace (Z.of_nat (length before + 1) + 1)
      with (Z.of_nat (length before) + 1 + 1) in IH by lia.
    rewrite <- (app_assoc before [t] temps') in IH. cbn [app] in IH.
    rewrite temperature_severity_snoc in IH.
    unfold temperature_finding, raises_severity.
    fold (raises_to_critical warn crit before t).
    destruct (raises_to_critical warn crit before t) eqn:Hc.
    + rewrite (IH _ _ H'). by rewrite <- !app_assoc.
    + unfold raises_to_warning in IH |- *. rewrite Hc in IH |- *.
      cbn [negb andb orb] in IH |- *.
      destruct ((warn <? t) && (temperature_severity warn crit before <? 1)) eqn:Hw.
      * rewrite (IH _ _ H'). by rewrite <- !app_assoc.
      * rewrite (IH _ _ H'). by rewrite <- !app_assoc.
Qed.

Lemma temperatures_all_present vals temps :
  temperatures vals = Ok temps → None ∉ vals.
Proof.
  unfold temperatures. revert temps.
  induction vals as [|temp rest IH]; intros temps H.
  - apply not_elem_of_nil.
  - destruct (mapM_Ok_cons _ _ _ _ H) as (t & temps' & -> & Ht & H').
    rewrite elem_of_cons. intros [<-|Hin]; [discriminate|].
    by apply (IH _ H').
Qed.

Lemma incomplete_false vals temps :
  vals ≠ [] → temperatures vals = Ok temps → incomplete vals = false.
Proof.
  intros Hne H. unfold incomplete.
  rewrite (bool_decide_eq_false_2 _ (temperatures_all_present _ _ H)).
  by destruct vals.
Qed.

(** The whole check, in closed form, on a request that gave readings. *)
Lemma get_temperatures_spec s warn crit vals temps :
  decode_all (get s temperature_varlist) = Ok vals → vals ≠ [] →
  temperatures vals = Ok temps →
  get_temperatures s warn crit
  = if temperature_severity warn crit temps =? 0 then
      avg ← true_div (sum temps) (Z.of_nat (length temps));
      Ok (0, temperature_summary avg :: temperature_findings warn crit [] vals temps,
          temperature_metrics warn crit [] vals temps)
    else
      Ok (temperature_severity warn crit temps,
          temperature_findings warn crit [] vals temps,
          temperature_metrics warn crit [] vals temps).
Proof.
  intros Hd Hne Ht. unfold get_temperatures.
  rewrite Hd. cbn [mbind result_bind].
  rewrite (incomplete_false _ _ Hne Ht).
  pose proof (temperature_loop_spec warn crit vals temps [] [] [] Ht) as Hl.
  change (temperature_loop warn crit 1 vals 0 [] []
          = Ok (temperature_severity warn crit temps,
                temperature_findings warn crit [] vals temps,
                temperature_metrics warn crit [] vals temps)) in Hl.
  rewrite Hl. cbn [mbind result_bind].
  destruct (temperature_severity warn crit temps =? 0) eqn:H0; [|done].
  apply Z.eqb_eq in H0. rewrite H0.
  unfold temperatures in Ht. rewrite Ht. cbn [mbind result_bind].
  by rewrite (mapM_Ok_length _ _ _ Ht).
Qed.

Lemma foldl_add_from acc xs : foldl Z.add acc xs = acc + sum xs.
Proof.
  unfold sum. revert acc.
  induction xs as [|y ys IH]; intros acc; cbn [foldl]; [lia|].
  rewrite (IH (acc + y)), (IH (0 + y)). lia.
Qed.

Lemma sum_cons x xs : sum (x :: xs) = x + sum xs.
Proof.
  unfold sum at 1. cbn [foldl]. by rewrite foldl_add_from.
Qed.

Lemma sum_permutation xs ys : xs ≡ₚ ys → sum xs = sum ys.
Proof.
  induction 1 as [|x xs ys _ IH|x y xs|xs ys zs _ IH1 _ IH2].
  - reflexivity.
  - by rewrite !sum_cons, IH.
  - rewrite !sum_cons. lia.
  - congruence.
Qed.

Lemma existsb_permutation {A} (f : A → bool) xs ys :
  xs ≡ₚ ys → existsb f xs = existsb f ys.
Proof.
  induction 1 as [|x xs ys _ IH|x y xs|xs ys zs _ IH1 _ IH2]; cbn.
  - reflexivity.
  - by rewrite IH.
  - by destruct (f x), (f y).
  - congruence.
Qed.

Lemma temperature_severity_permutation warn crit xs ys :
  xs ≡ₚ ys → temperature_severity warn crit xs = temperature_severity warn crit ys.
Proof.
  intros H. unfold temperature_severity.
  by rewrite (existsb_permutation _ _ _ H), (existsb_permutation _ _ _ H).
Qed.

Lemma existsb_Exists_ltb bound temps :
  existsb (Z.ltb bound) temps = true ↔ Exists (fun t => bound < t) temps.
Proof.
  rewrite existsb_exists, Exists_exists.
  split; intros (t & Hin & Ht); exists t.
  - split; [by apply list_elem_of_In | by apply Z.ltb_lt].
  - split; [by apply list_elem_of_In | by apply Z.ltb_lt].
Qed.

(** Dividing by a number other than zero raises nothing but
    [OverflowError]. *)
Lemma true_div_raises a b e :
  b ≠ 0 → true_div a b = Raise e → e = OverflowError.
Proof.
  intros Hb. unfold true_div.
  destruct (b =? 0) eqn:H0; [apply Z.eqb_eq in H0; lia|].
  destruct (a =? 0); [discriminate|].
  destruct (round_ratio (Z.abs a) (Z.abs b)) as [m x].
  destruct (971 <? x); [by intros [= <-] | discriminate].
Qed.

Lemma temperature_severity_ok warn crit temps :
  Forall (fun t => t ≤ warn ∧ t ≤ crit) temps →
  temperature_severity warn crit temps = 0.
Proof.
  intros H. unfold temperature_severity.
  assert (existsb (Z.ltb crit) temps = false) as ->.
  { apply not_true_is_false. rewrite existsb_Exists_ltb, Exists_exists.
    rewrite Forall_forall in H. intros (t & Hin & Ht). apply H in Hin. lia. }
  assert (existsb (Z.ltb warn) temps = false) as ->; [|done].
  apply not_true_is_false. rewrite existsb_Exists_ltb, Exists_exists.
  rewrite Forall_forall in H. intros (t & Hin & Ht). apply H in Hin. lia.
Qed.

Lemma raises_severity_ok warn crit before t :
  t ≤ warn → t ≤ crit → raises_severity warn crit before t = false.
Proof.
  intros Hw Hc. unfold raises_severity, raises_to_warning, raises_to_critical.
  rewrite (proj2 (Z.ltb_ge crit t)), (proj2 (Z.ltb_ge warn t)) by done.
  reflexivity.
Qed.

(** Readings that exceed no threshold get plain findings and a metric
    each. *)
Lemma temperature_readings_ok warn crit vals : ∀ temps before,
  length vals = length temps →
  Forall (fun t => t ≤ warn ∧ t ≤ crit) temps →
  temperature_findings warn crit before vals temps
  = (fun temp => "Temperature sensor at " +:+ fmt temp +:+ "°C") <$> vals
  ∧ temperature_metrics warn crit before vals temps
    = imap (fun k temp => metric warn crit (Z.of_nat (length before + k) + 1) temp) vals.
Proof.
  induction vals as [|temp rest IH]; intros temps before Hlen Hall.
  - by destruct temps.
  - destruct temps as [|t temps']; [done|].
    apply Forall_cons in Hall as [[Hw Hc] Hall]. injection Hlen as Hlen.
    rewrite temperature_findings_cons, temperature_metrics_cons.
    destruct (IH temps' (before ++ [t]) Hlen Hall) as [-> ->].
    pose proof (raises_severity_ok warn crit before t Hw Hc) as Hr.
    rewrite Hr. unfold temperature_finding.
    unfold raises_severity in Hr. apply orb_false_elim in Hr as [-> ->].
    split; [done|].
    rewrite imap_cons, Nat.add_0_r. cbn [app]. f_equal.
    apply imap_ext. intros k temp' _. cbn.
    rewrite length_app. cbn [length]. do 2 f_equal. lia.
Qed.

Lemma temperature_metrics_from_start warn crit vals temps :
  temperature_metrics warn crit [] vals temps
  = mjoin (imap (fun k '(temp, t) =>
                   if raises_severity warn crit (take k temps) t then []
                   else [metric warn crit (Z.of_nat k + 1) temp])
                (zip vals temps)).
Proof. reflexivity. Qed.

Lemma get_snmp_oper_status_no_metrics s oid hw warn crit ret_code messages perf_data :
  get_snmp_oper_status s oid hw warn crit = Ok (ret_code, messages, perf_data) →
  perf_data = [].
Proof.
  unfold get_snmp_oper_status.
  destruct (not_vals (walk s [Varbind1 oid])); [by intros [= _ _ <-]|].
  destruct (oper_status_loop hw 1 (default [] (walk s [Varbind1 oid])) 0 [] 0)
    as [[[rc msgs] cf]|e]; cbn [mbind result_bind]; [|discriminate].
  destruct (negb (rc =? 3)); [destruct (cf =? 0)|]; by intros [= _ _ <-].
Qed.

Lemma get_temperatures_returns s warn crit vals temps :
  decode_all (get s temperature_varlist) = Ok vals →
  temperatures vals = Ok temps →
  temperature_severity warn crit temps ≠ 0 ∨ mean_in_range temps = true →
  ∃ v, get_temperatures s warn crit = Ok v.
Proof.
  intros Hd Ht Hr.
  destruct vals as [|temp rest].
  { unfold get_temperatures. rewrite Hd. cbn. eauto. }
  rewrite (get_temperatures_spec _ _ _ _ _ Hd ltac:(done) Ht).
  destruct (temperature_severity warn crit temps =? 0) eqn:H0; [|eauto].
  apply Z.eqb_eq in H0. destruct Hr as [Hr|Hr]; [done|].
  unfold mean_in_range in Hr.
  destruct (true_div (sum temps) (Z.of_nat (length temps))); [|done].
  cbn. eauto.
Qed.

Lemma get_temperatures_perf_data s warn crit vals temps ret_code messages perf_data :
  decode_all (get s temperature_varlist) = Ok vals →
  temperatures vals = Ok temps →
  get_temperatures s warn crit = Ok (ret_code, messages, perf_data) →
  perf_data = temperature_metrics warn crit [] vals temps.
Proof.
  intros Hd Ht.
  destruct vals as [|temp rest].
  { unfold get_temperatures. rewrite Hd. cbn.
    apply mapM_Ok_nil in Ht as ->. by intros [= _ _ <-]. }
  rewrite (get_temperatures_spec _ _ _ _ _ Hd ltac:(done) Ht).
  destruct (temperature_severity warn crit temps =? 0).
  - destruct (true_div (sum temps) (Z.of_nat (length temps))); cbn; [|done].
    by intros [= _ _ <-].
  - by intros [= _ _ <-].
Qed.

(** C3, as the code has it: the check returns a verdict unless no
    reading raises the severity and the mean is out of range; in the
    verdict it returns, reading [k] has a metric exactly when it does not
    raise the severity reached by the readings before it, so that every
    reading above no threshold has one, and so has a reading above a
    threshold whose severity was reached before; the operational-status
    check returns no metric. *)
Theorem temperature_metric_emitted s warn crit vals temps :
  decode_all (get s temperature_varlist) = Ok vals →
  temperatures vals = Ok temps →
  (temperature_severity warn crit temps ≠ 0 ∨ mean_in_range temps = true →
   ∃ v, get_temperatures s warn crit = Ok v)
  ∧ (∀ ret_code messages perf_data,
       get_temperatures s warn crit = Ok (ret_code, messages, perf_data) →
       perf_data
       = mjoin (imap (fun k '(temp, t) =>
                        if raises_severity warn crit (take k temps) t then []
                        else [metric warn crit (Z.of_nat k + 1) temp])
                     (zip vals temps))
       ∧ ∀ (k : nat) temp t,
           vals !! k = Some temp → temps !! k = Some t →
           t ≤ warn → t ≤ crit →
           metric warn crit (Z.of_nat k + 1) temp ∈ perf_data)
  ∧ (∀ s' oid hw warn' crit' ret_code messages perf_data,
       get_snmp_oper_status s' oid hw warn' crit' = Ok (ret_code, messages, perf_data) →
       perf_data = []).
Proof.
  intros Hd Ht. split; [|split].
  - by apply get_temperatures_returns with vals.
  - intros rc msgs perf Hr.
    pose proof (get_temperatures_perf_data _ _ _ _ _ _ _ _ Hd Ht Hr) as ->.
    rewrite temperature_metrics_from_start. split; [done|].
    intros k temp t Hk Hkt Hw Hc.
    apply list_elem_of_join.
    exists [metric warn crit (Z.of_nat k + 1) temp].
    split; [by apply list_elem_of_singleton|].
    apply list_elem_of_lookup. exists k.
    rewrite list_lookup_imap.
    assert (zip vals temps !! k = Some (temp, t)) as ->.
    { apply lookup_zip_with_Some. eauto. }
    cbn. by rewrite raises_severity_ok.
  - intros. by eapply get_snmp_oper_status_no_metrics.
Qed.

Lemma temperature_metric_emitted_witness :
  "temp2=40°C;50;60"
  ∈ perf_data_of (get_temperatures (answering (readings ["65"; "40"; "66"])) 50 60).
Proof.
  exact (proj2 (proj1 (proj2 (temperature_metric_emitted
                                (answering (readings ["65"; "40"; "66"])) 50 60
                                [Some "65"; Some "40"; Some "66"] [65; 40; 66]
                                eq_refl eq_refl))
                  2
                  ["Temperature sensor at 65°C exceeds critical threshold (60°C)";
                   "Temperature sensor at 40°C"; "Temperature sensor at 66°C"]
                  ["temp2=40°C;50;60"; "temp3=66°C;50;60"] eq_refl)
           1%nat (Some "40") 40 eq_refl eq_refl ltac:(lia) ltac:(lia)).
Defined.

(** C3, as stated: the second reading is above the warning threshold
    and has a metric all the same. *)
Lemma temperature_metric_for_breaching_reading :
  get_temperatures (answering (readings ["55"; "56"])) 50 60
  = Ok (1, ["Temperature sensor at 55°C exceeds warning threshold (50°C)";
            "Temperature sensor at 56°C"],
        ["temp2=56°C;50;60"])
  ∧ temperatures [Some "55"; Some "56"] = Ok [55; 56]
  ∧ 50 < 56.
Proof. repeat split. Qed.

(** C6, as the code has it: on a request that gave readings, none above
    [warn] and none above [crit], whose mean [sum / len] is within the
    range of a float, the severity is OK, every reading has its metric and
    the first finding is the summary with [str] of that quotient; the
    quotient is a float (not rounded to an integer) nearest to the mean,
    and the mean itself when the mean is a float; so readings 30 and 35
    with [warn = 50] and [crit = 60] give the average 32.5 and both
    metrics. *)
Theorem temperature_all_ok s warn crit vals temps avg :
  decode_all (get s temperature_varlist) = Ok vals → vals ≠ [] →
  temperatures vals = Ok temps →
  Forall (fun t => t ≤ warn ∧ t ≤ crit) temps →
  true_div (sum temps) (Z.of_nat (length temps)) = Ok avg →
  get_temperatures s warn crit
  = Ok (0,
        ("All temperature sensors OK with an average of "
         +:+ str_of_float avg +:+ "°C")
        :: ((fun temp => "Temperature sensor at " +:+ fmt temp +:+ "°C") <$> vals),
        imap (fun k temp =>
                "temp" +:+ str_of_int (Z.of_nat k + 1) +:+ "=" +:+ fmt temp
                +:+ "°C;" +:+ str_of_int warn +:+ ";" +:+ str_of_int crit)
             vals)
  ∧ nearest_float (sum temps) (Z.of_nat (length temps)) avg
  ∧ (float_quotient (sum temps) (Z.of_nat (length temps)) →
     exact_float (sum temps) (Z.of_nat (length temps)) avg)
  ∧ get_temperatures (answering (readings ["30"; "35"])) 50 60
    = Ok (0,
          ["All temperature sensors OK with an average of 32.5°C";
           "Temperature sensor at 30°C"; "Temperature sensor at 35°C"],
          ["temp1=30°C;50;60"; "temp2=35°C;50;60"]).
Proof.
  intros Hd Hne Ht Hall Havg.
  split; [|split; [by apply true_div_correct|split; [|reflexivity]]]; cycle 1.
  { intros Hq.
    assert (Z.of_nat (length temps) ≠ 0) as Hlen.
    { rewrite (mapM_Ok_length _ _ _ Ht). destruct vals; [done|cbn; lia]. }
    destruct (true_div_exact _ _ Hlen Hq) as (x & Hx & Hex).
    rewrite Havg in Hx. by injection Hx as ->. }
  rewrite (get_temperatures_spec _ _ _ _ _ Hd Hne Ht).
  rewrite (temperature_severity_ok _ _ _ Hall). cbn [Z.eqb].
  rewrite Havg. cbn [mbind result_bind].
  destruct (temperature_readings_ok warn crit vals temps []
              (eq_sym (mapM_Ok_length _ _ _ Ht)) Hall) as [-> ->].
  reflexivity.
Qed.

Lemma temperature_all_ok_witness :
  get_temperatures (answering (readings ["-5"; "0"; "21"])) 50 60
  = Ok (0,
        ["All temperature sensors OK with an average of 5.333333333333333°C";
         "Temperature sensor at -5°C"; "Temperature sensor at 0°C";
         "Temperature sensor at 21°C"],
        ["temp1=-5°C;50;60"; "temp2=0°C;50;60"; "temp3=21°C;50;60"]).
Proof.
  refine (proj1 (temperature_all_ok (answering (readings ["-5"; "0"; "21"])) 50 60
                   [Some "-5"; Some "0"; Some "21"] [-5; 0; 21]
                   (Float false 6004799503160661 (-50)) _ _ _ _ _)).
  - reflexivity.
  - discriminate.
  - reflexivity.
  - repeat constructor; lia.
  - reflexivity.
Defined.

(** C6, as stated: a reading that is not above [warn] is above a lower
    [crit], and the severity is CRITICAL with no summary and no metric;
    and a reading far below both thresholds has a mean that is no float,
    and the check raises. *)
Lemma temperature_below_warn_not_ok :
  get_temperatures (answering (readings ["55"])) 60 50
  = Ok (2, ["Temperature sensor at 55°C exceeds critical threshold (50°C)"], [])
  ∧ temperatures [Some "55"] = Ok [55] ∧ 55 ≤ 60
  ∧ get_temperatures (answering (readings [far_below])) 50 60 = Raise OverflowError
  ∧ temperatures [Some far_below] = Ok [- 10 ^ 400] ∧ - 10 ^ 400 ≤ 50.
Proof. repeat split; try (vm_compute; reflexivity). vm_compute. discriminate. vm_compute. discriminate. Qed.

Lemma temperature_severity_cases warn crit temps :
  (temperature_severity warn crit temps = 2 ↔ Exists (fun t => crit < t) temps)
  ∧ (temperature_severity warn crit temps = 1
     ↔ ¬ Exists (fun t => crit < t) temps ∧ Exists (fun t => warn < t) temps)
  ∧ (temperature_severity warn crit temps = 0
     ↔ ¬ Exists (fun t => crit < t) temps ∧ ¬ Exists (fun t => warn < t) temps).
Proof.
  rewrite <- !existsb_Exists_ltb. unfold temperature_severity.
  destruct (existsb (Z.ltb crit) temps), (existsb (Z.ltb warn) temps);
    intuition congruence.
Qed.

(** C10, as the code has it: for two requests whose readings are
    permutations of each other, the two checks end alike: both return,
    with the same severity, CRITICAL when a reading is above [crit], else
    WARNING when a reading is above [warn], else OK; unless no reading is
    above a threshold and the mean is out of the range of a float, where
    both raise [OverflowError]. *)
Theorem temperature_severity_of_permutation s1 s2 warn crit vals1 vals2 temps1 temps2 :
  decode_all (get s1 temperature_varlist) = Ok vals1 →
  decode_all (get s2 temperature_varlist) = Ok vals2 →
  temperatures vals1 = Ok temps1 → temperatures vals2 = Ok temps2 →
  temps1 ≠ [] → temps1 ≡ₚ temps2 →
  let sev := temperature_severity warn crit temps1 in
  (sev = 2 ↔ Exists (fun t => crit < t) temps1)
  ∧ (sev = 1 ↔ ¬ Exists (fun t => crit < t) temps1 ∧ Exists (fun t => warn < t) temps1)
  ∧ (sev = 0 ↔ ¬ Exists (fun t => crit < t) temps1 ∧ ¬ Exists (fun t => warn < t) temps1)
  ∧ severity (get_temperatures s1 warn crit) = severity (get_temperatures s2 warn crit)
  ∧ (sev ≠ 0 ∨ mean_in_range temps1 = true →
     severity (get_temperatures s1 warn crit) = Some sev
     ∧ severity (get_temperatures s2 warn crit) = Some sev)
  ∧ (sev = 0 → mean_in_range temps1 = false →
     get_temperatures s1 warn crit = Raise OverflowError
     ∧ get_temperatures s2 warn crit = Raise OverflowError).
Proof.
  intros Hd1 Hd2 Ht1 Ht2 Hne Hp sev.
  assert (vals1 ≠ []) as Hne1.
  { intros ->. apply mapM_Ok_nil in Ht1. done. }
  assert (vals2 ≠ []) as Hne2.
  { intros ->. apply mapM_Ok_nil in Ht2. subst.
    by apply Permutation_nil_r in Hp. }
  pose proof (get_temperatures_spec _ warn crit _ _ Hd1 Hne1 Ht1) as E1.
  pose proof (get_temperatures_spec _ warn crit _ _ Hd2 Hne2 Ht2) as E2.
  rewrite <- (temperature_severity_permutation warn crit _ _ Hp) in E2.
  rewrite <- (sum_permutation _ _ Hp), <- (Permutation_length Hp) in E2.
  fold sev in E1, E2.
  assert (Z.of_nat (length temps1) ≠ 0) as Hlen by (destruct temps1; [done|cbn; lia]).
  pose proof (temperature_severity_cases warn crit temps1) as (C2 & C1 & C0).
  split; [done|]. split; [done|]. split; [done|].
  split; [|split].
  - rewrite E1, E2. destruct (sev =? 0); [|done].
    by destruct (true_div (sum temps1) (Z.of_nat (length temps1))).
  - intros Hr. rewrite E1, E2.
    destruct (sev =? 0) eqn:H0; [|done].
    apply Z.eqb_eq in H0. destruct Hr as [Hr|Hr]; [done|].
    unfold mean_in_range in Hr.
    destruct (true_div (sum temps1) (Z.of_nat (length temps1))); [|done].
    by rewrite H0.
  - intros H0 Hr. rewrite E1, E2, H0. cbn [Z.eqb].
    unfold mean_in_range in Hr.
    destruct (true_div (sum temps1) (Z.of_nat (length temps1))) as [avg|e] eqn:Hdiv;
      [done|].
    apply true_div_raises in Hdiv as ->; done.
Qed.

Lemma temperature_severity_of_permutation_witness :
  severity (get_temperatures (answering (readings ["40"; "55"; "70"])) 50 60) = Some 2
  ∧ severity (get_temperatures (answering (readings ["70"; "40"; "55"])) 50 60) = Some 2.
Proof.
  refine (proj1 (proj2 (proj2 (proj2 (proj2 (temperature_severity_of_permutation
            (answering (readings ["40"; "55"; "70"]))
            (answering (readings ["70"; "40"; "55"])) 50 60
            [Some "40"; Some "55"; Some "70"] [Some "70"; Some "40"; Some "55"]
            [40; 55; 70] [70; 40; 55] _ _ _ _ _ _))))) _).
  - reflexivity.
  - reflexivity.
  - reflexivity.
  - reflexivity.
  - discriminate.
  - change [70; 40; 55] with ([70] ++ [40; 55]).
    change [40; 55; 70] with ([40; 55] ++ [70]).
    apply Permutation_app_comm.
  - left. vm_compute. discriminate.
Defined.

(** C10, as stated: a list of one reading, a permutation of itself, far
    below both thresholds: the check raises and returns no severity. *)
Lemma temperature_severity_not_returned :
  temperatures [Some far_below] = Ok [- 10 ^ 400]
  ∧ temperature_severity 50 60 [- 10 ^ 400] = 0
  ∧ get_temperatures (answering (readings [far_below])) 50 60 = Raise OverflowError
  ∧ severity (get_temperatures (answering (readings [far_below])) 50 60) ≠ Some 0.
Proof. repeat split; try (vm_compute; reflexivity). vm_compute. discriminate. Qed.

(** ** The health check *)

(** The whole check, in closed form, on three complete answers. *)
Lemma get_system_info_spec s name oid descr ctype crev cpn ctag card rev pn status tag code :
  answered (get s sys_varlist) [name; oid; descr] →
  answered (get s chassis_varlist) [ctype; crev; cpn; ctag] →
  answered (get s card_varlist) [card; rev; pn; status; tag] →
  int_of_str status = Ok code →
  get_system_info s
  = Ok (if code =? 1 then 0 else if (code =? 4) || (code =? 6) then 1 else 2,
        [name +:+ " ( " +:+ oid +:+ " )" +:+ nl +:+ descr;
         "Chassis: " +:+ fmt (Os10ChassisDefType !! ctype) +:+ " (rev. " +:+ crev
         +:+ ") - p/n: " +:+ cpn +:+ " - ServiceTag: " +:+ ctag;
         "Card: " +:+ card +:+ " (rev. " +:+ rev +:+ ") - p/n: " +:+ pn
         +:+ " - ServiceTag: " +:+ tag +:+ " - Status: "
         +:+ fmt (Os10CardOperStatus !! status)],
        []).
Proof.
  unfold answered, get_system_info. intros -> -> -> Hc.
  cbn [mbind result_bind fmap list_fmap].
  change (incomplete [Some name; Some oid; Some descr]) with false.
  change (incomplete [Some ctype; Some crev; Some cpn; Some ctag]) with false.
  change (incomplete [Some card; Some rev; Some pn; Some status; Some tag]) with false.
  cbn [index lookup list_lookup mbind result_bind option_bind int_of_item fmt default app].
  rewrite Hc. cbn [mbind result_bind].
  destruct (code =? 1); [done|]. cbn [negb].
  by destruct ((code =? 4) || (code =? 6)).
Qed.

(** C8: when the three requests of the health check come back complete,
    the severity follows the status code of the card alone: OK for 1,
    WARNING for 4 and 6 (the severity is still OK there), CRITICAL for any
    other code; the findings are those of the three requests in order,
    with no summary, and there is no metric. *)
Theorem system_info_severity s name oid descr ctype crev cpn ctag card rev pn status tag code :
  answered (get s sys_varlist) [name; oid; descr] →
  answered (get s chassis_varlist) [ctype; crev; cpn; ctag] →
  answered (get s card_varlist) [card; rev; pn; status; tag] →
  int_of_str status = Ok code →
  ∃ ret_code,
    get_system_info s
    = Ok (ret_code,
          [name +:+ " ( " +:+ oid +:+ " )" +:+ nl +:+ descr;
           "Chassis: " +:+ fmt (Os10ChassisDefType !! ctype) +:+ " (rev. " +:+ crev
           +:+ ") - p/n: " +:+ cpn +:+ " - ServiceTag: " +:+ ctag;
           "Card: " +:+ card +:+ " (rev. " +:+ rev +:+ ") - p/n: " +:+ pn
           +:+ " - ServiceTag: " +:+ tag +:+ " - Status: "
           +:+ fmt (Os10CardOperStatus !! status)],
          [])
    ∧ (code = 1 → ret_code = 0)
    ∧ (code = 4 ∨ code = 6 → ret_code = 1)
    ∧ (code ≠ 1 → code ≠ 4 → code ≠ 6 → ret_code = 2).
Proof.
  intros H1 H2 H3 Hc.
  rewrite (get_system_info_spec _ _ _ _ _ _ _ _ _ _ _ _ _ _ H1 H2 H3 Hc).
  eexists. split; [reflexivity|].
  repeat split.
  - by intros ->.
  - by intros [-> | ->].
  - intros N1 N4 N6.
    apply Z.eqb_neq in N1, N4, N6. by rewrite N1, N4, N6.
Qed.

Lemma system_info_severity_witness :
  ∃ ret_code,
    get_system_info
      (health_session (readings ["sw1"; ".1.3.6.1.4.1.674"; "Dell EMC OS10"])
         (readings ["2"; "A01"; "0XYZ"; "ABC1234"])
         (readings ["S4048-ON"; "A01"; "0XYZ"; "6"; "ABC1234"]))
    = Ok (ret_code,
          ["sw1 ( .1.3.6.1.4.1.674 )" +:+ nl +:+ "Dell EMC OS10";
           "Chassis: s4048on (rev. A01) - p/n: 0XYZ - ServiceTag: ABC1234";
           "Card: S4048-ON (rev. A01) - p/n: 0XYZ - ServiceTag: ABC1234 - Status: offline"],
          [])
    ∧ (6 = 1 → ret_code = 0)
    ∧ (6 = 4 ∨ 6 = 6 → ret_code = 1)
    ∧ (6 ≠ 1 → 6 ≠ 4 → 6 ≠ 6 → ret_code = 2).
Proof.
  refine (system_info_severity
            (health_session (readings ["sw1"; ".1.3.6.1.4.1.674"; "Dell EMC OS10"])
               (readings ["2"; "A01"; "0XYZ"; "ABC1234"])
               (readings ["S4048-ON"; "A01"; "0XYZ"; "6"; "ABC1234"]))
            "sw1" ".1.3.6.1.4.1.674" "Dell EMC OS10" "2" "A01" "0XYZ" "ABC1234"
            "S4048-ON" "A01" "0XYZ" "6" "ABC1234" 6 _ _ _ _); reflexivity.
Defined.

(** ** Requests that give nothing *)

(** C2, as the code has it: the operational-status check returns
    UNKNOWN with the one finding "Unable to get SNMP metrics from server !"
    and no metric when the walk gives nothing, be it no result or an
    empty tuple, which it does not tell apart; the temperature check and
    each of the three requests of the health check return the same verdict
    on an empty tuple, whatever was found before. *)
Theorem nothing_fetched_unknown :
  (∀ s oid hw warn crit,
     walk s [Varbind1 oid] = None ∨ walk s [Varbind1 oid] = Some [] →
     get_snmp_oper_status s oid hw warn crit
     = Ok (3, ["Unable to get SNMP metrics from server !"], []))
  ∧ (∀ s warn crit,
       get s temperature_varlist = Some [] →
       get_temperatures s warn crit
       = Ok (3, ["Unable to get SNMP metrics from server !"], []))
  ∧ (∀ s,
       get s sys_varlist = Some [] →
       get_system_info s = Ok (3, ["Unable to get SNMP metrics from server !"], []))
  ∧ (∀ s name oid descr,
       answered (get s sys_varlist) [name; oid; descr] →
       get s chassis_varlist = Some [] →
       get_system_info s = Ok (3, ["Unable to get SNMP metrics from server !"], []))
  ∧ (∀ s name oid descr ctype crev cpn ctag,
       answered (get s sys_varlist) [name; oid; descr] →
       answered (get s chassis_varlist) [ctype; crev; cpn; ctag] →
       get s card_varlist = Some [] →
       get_system_info s = Ok (3, ["Unable to get SNMP metrics from server !"], [])).
Proof.
  repeat split.
  - intros s oid hw warn crit [H|H]; unfold get_snmp_oper_status; by rewrite H.
  - intros s warn crit H. unfold get_temperatures. by rewrite H.
  - intros s H. unfold get_system_info. by rewrite H.
  - unfold answered. intros s name oid descr H1 H2.
    unfold get_system_info. by rewrite H1, H2.
  - unfold answered. intros s name oid descr ctype crev cpn ctag H1 H2 H3.
    unfold get_system_info. by rewrite H1, H2, H3.
Qed.

Lemma nothing_fetched_unknown_witness :
  get_snmp_oper_status (answering None) "oid" "fan" 1 2
  = Ok (3, ["Unable to get SNMP metrics from server !"], [])
  ∧ get_system_info
      (health_session (readings ["sw1"; ".1.3.6.1.4.1.674"; "Dell EMC OS10"])
         (Some []) None)
    = Ok (3, ["Unable to get SNMP metrics from server !"], []).
Proof.
  destruct nothing_fetched_unknown as (Hoper & _ & _ & Hchassis & _).
  split.
  - apply Hoper. by left.
  - apply (Hchassis _ "sw1" ".1.3.6.1.4.1.674" "Dell EMC OS10"); reflexivity.
Defined.

(** C2, as stated: a walk that comes back with no component at all is
    answered like a walk that failed, and the finding is not the text
    "Unable to retrieve metrics". *)
Lemma empty_walk_is_unknown :
  get_snmp_oper_status (answering (Some [])) "oid" "fan" 1 2
  = Ok (3, ["Unable to get SNMP metrics from server !"], [])
  ∧ get_snmp_oper_status (answering (Some [])) "oid" "fan" 1 2
    = get_snmp_oper_status (answering None) "oid" "fan" 1 2
  ∧ messages_of (get_snmp_oper_status (answering None) "oid" "fan" 1 2)
    ≠ ["Unable to retrieve metrics"].
Proof. repeat split. discriminate. Qed.

(** The temperature and health checks decode the entries before they
    look for a missing one: a request that gives [None], or a tuple with
    a [None] entry, raises, and the test [None in vals] is never true. *)
Lemma missing_entries_raise :
  get_temperatures (answering None) 50 60 = Raise TypeError
  ∧ get_temperatures (answering (Some [None; None])) 50 60 = Raise AttributeError
  ∧ get_temperatures (answering (Some [Some "30"; None])) 50 60 = Raise AttributeError
  ∧ get_system_info (answering None) = Raise TypeError
  ∧ get_system_info (answering (Some [None; None; None])) = Raise AttributeError.
Proof. repeat split. Qed.

Lemma decode_all_present got vals : decode_all got = Ok vals → None ∉ vals.
Proof.
  destruct got as [l|]; [|discriminate]. cbn [decode_all]. revert vals.
  induction l as [|b l IH]; intros vals H.
  - apply mapM_Ok_nil in H as ->. apply not_elem_of_nil.
  - destruct (mapM_Ok_cons _ _ _ _ H) as (v & vals' & -> & Hv & H').
    rewrite elem_of_cons. intros [<-|Hin]; [|by apply (IH _ H')].
    by destruct (decode_item b).
Qed.

(** ** Texts of integers *)

Lemma uint_val_spec d : ∀ acc,
  uint_val d acc
  = acc * 10 ^ Z.of_N (DecimalPos.Unsigned.usize d)
    + Z.of_N (DecimalPos.Unsigned.of_lu (Decimal.rev d)).
Proof.
  induction d; intros acc; cbn [uint_val DecimalPos.Unsigned.usize];
    [cbn; lia|..];
    rewrite IHd; unfold Decimal.rev; cbn [Decimal.revapp];
    rewrite (DecimalPos.Unsigned.of_lu_revapp d (_ Decimal.Nil));
    fold (Decimal.rev d); cbn [DecimalPos.Unsigned.of_lu];
    rewrite N2Z.inj_succ, Z.pow_succ_r by lia;
    rewrite N2Z.inj_add, N2Z.inj_mul, N2Z.inj_pow; cbn; lia.
Qed.

Lemma uint_val_of_uint d : uint_val d 0 = Z.of_uint d.
Proof.
  rewrite uint_val_spec. unfold Z.of_uint.
  by rewrite DecimalPos.Unsigned.of_uint_alt.
Qed.

Lemma parse_digits_uint d : ∀ acc prev,
  d ≠ Decimal.Nil ∨ prev = true →
  parse_digits (NilEmpty.string_of_uint d) acc prev = Some (uint_val d acc).
Proof.
  induction d; intros acc prev H; cbn [NilEmpty.string_of_uint uint_val];
    [by destruct H as [[]| ->]|..];
    cbn [parse_digits];
    match goal with
    | |- context [digit_val ?c] =>
        let v := eval vm_compute in (digit_val c) in change (digit_val c) with v
    end;
    cbn iota; apply IHd; by right.
Qed.

Lemma string_of_uint_digits d : all_chars is_digit (NilEmpty.string_of_uint d) = true.
Proof. induction d; cbn; done. Qed.

Lemma all_chars_impl (f g : ascii → bool) s :
  (∀ c, f c = true → g c = true) → all_chars f s = true → all_chars g s = true.
Proof.
  intros Hfg. induction s as [|c r IH]; [done|]. cbn.
  intros [Hc Hr]%andb_true_iff. by rewrite (Hfg _ Hc), IH.
Qed.

Lemma rstrip_no_space s :
  all_chars (fun c => negb (is_space c)) s = true → rstrip s = s.
Proof.
  induction s as [|c r IH]; [done|]. cbn [all_chars rstrip].
  intros [Hc Hr]%andb_true_iff. rewrite (IH Hr).
  apply negb_true_iff in Hc. rewrite Hc. by destruct r.
Qed.

Lemma lstrip_no_space s :
  all_chars (fun c => negb (is_space c)) s = true → lstrip s = s.
Proof.
  destruct s as [|c r]; [done|]. cbn [all_chars lstrip].
  intros [Hc _]%andb_true_iff. apply negb_true_iff in Hc. by rewrite Hc.
Qed.

Lemma utf8_valid_ascii s :
  all_chars (fun c => byte_val c <? 128) s = true → utf8_valid s = true.
Proof.
  induction s as [|c r IH]; [done|]. cbn [all_chars utf8_valid].
  intros [Hc Hr]%andb_true_iff. cbn zeta. rewrite Hc. by apply IH.
Qed.

Lemma digit_no_space c : is_digit c = true → negb (is_space c) = true.
Proof.
  unfold is_digit, digit_val, is_space.
  destruct ((48 <=? byte_val c) && (byte_val c <=? 57)) eqn:H; [|done].
  intros _. apply andb_true_iff in H as [H1 H2].
  apply Z.leb_le in H1, H2. apply negb_true_iff, orb_false_iff.
  split; [apply andb_false_iff; right; lia | lia].
Qed.

Lemma digit_ascii c : is_digit c = true → (byte_val c <? 128) = true.
Proof.
  unfold is_digit, digit_val.
  destruct ((48 <=? byte_val c) && (byte_val c <=? 57)) eqn:H; [|done].
  intros _. apply andb_true_iff in H as [H1 H2]. apply Z.leb_le in H2. lia.
Qed.

Lemma to_uint_not_nil p : Pos.to_uint p ≠ Decimal.Nil.
Proof.
  intros H. pose proof (DecimalPos.Unsigned.of_to p) as E.
  rewrite H in E. discriminate.
Qed.

(** [int(str(n))] is [n]. *)
Lemma int_of_str_of_int n : int_of_str (str_of_int n) = Ok n.
Proof.
  assert (∀ d, d ≠ Decimal.Nil →
            parse_int (NilEmpty.string_of_uint d) = Some (Z.of_uint d)) as Hpos.
  { intros d Hd. unfold parse_int.
    pose proof (string_of_uint_digits d) as Hdig.
    rewrite lstrip_no_space, rstrip_no_space
      by (eapply all_chars_impl; [apply digit_no_space|done]).
    assert (parse_digits (NilEmpty.string_of_uint d) 0 false = Some (Z.of_uint d)) as E.
    { rewrite parse_digits_uint by by left. by rewrite uint_val_of_uint. }
    destruct d; try done; exact E. }
  assert (∀ d, d ≠ Decimal.Nil →
            parse_int (String "-" (NilEmpty.string_of_uint d)) = Some (- Z.of_uint d))
    as Hneg.
  { intros d Hd. unfold parse_int.
    pose proof (string_of_uint_digits d) as Hdig.
    assert (all_chars (fun c => negb (is_space c))
              (String "-" (NilEmpty.string_of_uint d)) = true) as Hns.
    { cbn [all_chars]. apply andb_true_iff. split; [done|].
      eapply all_chars_impl; [apply digit_no_space|done]. }
    rewrite lstrip_no_space, rstrip_no_space by done.
    rewrite parse_digits_uint by by left. by rewrite uint_val_of_uint. }
  unfold int_of_str, str_of_int.
  rewrite <- (DecimalZ.of_to n) at 2.
  destruct n as [|p|p]; cbn [Z.to_int NilEmpty.string_of_int Z.of_int].
  - reflexivity.
  - by rewrite (Hpos _ (to_uint_not_nil p)).
  - by rewrite (Hneg _ (to_uint_not_nil p)).
Qed.

(** [str(n)], as bytes, decodes to itself. *)
Lemma decode_str_of_int n : decode (str_of_int n) = Ok (str_of_int n).
Proof.
  unfold decode. rewrite utf8_valid_ascii; [done|].
  unfold str_of_int.
  destruct (Z.to_int n) as [d|d]; cbn [NilEmpty.string_of_int all_chars].
  - eapply all_chars_impl; [apply digit_ascii|apply string_of_uint_digits].
  - apply andb_true_iff. split; [done|].
    eapply all_chars_impl; [apply digit_ascii|apply string_of_uint_digits].
Qed.

(** ** The operational-status check: further properties *)

Lemma status_of_raises item e :
  status_of item = Raise e →
  e = AttributeError ∨ e = UnicodeDecodeError ∨ e = ValueError.
Proof.
  unfold status_of, decode_item, decode, int_of_str.
  destruct item as [b|]; [|intros [= <-]; by left].
  destruct (utf8_valid b); cbn; [|intros [= <-]; right; by left].
  destruct (parse_int b); [done|]. intros [= <-]. right. by right.
Qed.

Lemma mapM_Raise_first {A B} (f : A → result B) x xs e :
  f x = Raise e → mapM f (x :: xs) = Raise e.
Proof. intros H. cbn. by rewrite H. Qed.

Lemma mapM_cons_Ok {A B} (f : A → result B) x xs y :
  f x = Ok y → mapM f (x :: xs) = (fun ys => y :: ys) <$> mapM f xs.
Proof. intros H. cbn. rewrite H. cbn. by destruct (mapM f xs). Qed.

Lemma oper_status_loop_raise hw vals : ∀ e index ret_code messages count_fail,
  statuses vals = Raise e →
  oper_status_loop hw index vals ret_code messages count_fail = Raise e.
Proof.
  unfold statuses.
  induction vals as [|item rest IH]; intros e i rc m cf H; [discriminate|].
  cbn [oper_status_loop].
  destruct (status_of item) as [code|e'] eqn:Hi.
  - rewrite (mapM_cons_Ok _ _ _ _ Hi) in H.
    destruct (mapM status_of rest) as [codes|e''] eqn:Hr; [discriminate|].
    injection H as ->.
    unfold status_of in Hi.
    destruct (decode_item item) as [text|]; [|discriminate].
    cbn [mbind result_bind] in Hi |- *. rewrite Hi. cbn [mbind result_bind].
    by apply IH.
  - rewrite (mapM_Raise_first _ _ _ _ Hi) in H. injection H as ->.
    unfold status_of in Hi.
    destruct (decode_item item) as [text|e0]; cbn [mbind result_bind] in Hi |- *;
      [by rewrite Hi | congruence].
Qed.

Lemma statuses_unreadable vals :
  Exists (fun item => ∃ e, status_of item = Raise e) vals →
  ∃ e, statuses vals = Raise e
       ∧ (e = AttributeError ∨ e = UnicodeDecodeError ∨ e = ValueError).
Proof.
  unfold statuses.
  induction vals as [|item rest IH]; intros H; [by apply Exists_nil in H|].
  destruct (status_of item) as [code|e] eqn:Hi.
  - apply Exists_cons in H as [[e He]|H]; [congruence|].
    destruct (IH H) as (e & He & Hk). exists e. split; [|done].
    by rewrite (mapM_cons_Ok _ _ _ _ Hi), He.
  - exists e. split; [by apply mapM_Raise_first | by eapply status_of_raises].
Qed.

(** The three ways the check can end on a walk that gave entries. *)
Lemma get_snmp_oper_status_raise s oid hw warn crit vals e :
  walk s [Varbind1 oid] = Some vals → statuses vals = Raise e →
  get_snmp_oper_status s oid hw warn crit = Raise e.
Proof.
  intros Hw Hs. unfold get_snmp_oper_status. rewrite Hw.
  destruct vals as [|item rest]; [discriminate|]. cbn [not_vals default].
  by rewrite (oper_status_loop_raise _ _ _ _ _ _ _ Hs).
Qed.

Lemma get_snmp_oper_status_Ok_inv s oid hw warn crit v :
  get_snmp_oper_status s oid hw warn crit = Ok v →
  (not_vals (walk s [Varbind1 oid]) = true ∧ v = unable)
  ∨ ∃ vals codes,
      walk s [Varbind1 oid] = Some vals ∧ vals ≠ [] ∧ statuses vals = Ok codes.
Proof.
  intros H.
  destruct (walk s [Varbind1 oid]) as [[|item rest]|] eqn:Hw.
  - left. split; [done|]. unfold get_snmp_oper_status in H. rewrite Hw in H.
    by injection H.
  - right. destruct (statuses (item :: rest)) as [codes|e] eqn:Hs.
    + by exists (item :: rest), codes.
    + by rewrite (get_snmp_oper_status_raise _ _ _ _ _ _ _ Hw Hs) in H.
  - left. split; [done|]. unfold get_snmp_oper_status in H. rewrite Hw in H.
    by injection H.
Qed.

(** The shape of a verdict of the check. *)
Lemma get_snmp_oper_status_shape s oid hw warn crit ret_code messages perf_data :
  get_snmp_oper_status s oid hw warn crit = Ok (ret_code, messages, perf_data) →
  (ret_code = 0 ∨ ret_code = 1 ∨ ret_code = 2 ∨ ret_code = 3)
  ∧ messages ≠ [] ∧ perf_data = [].
Proof.
  intros H.
  destruct (get_snmp_oper_status_Ok_inv _ _ _ _ _ _ H)
    as [[_ [= -> -> ->]]|(vals & codes & Hw & Hne & Hs)].
  { split; [by do 3 right | done]. }
  rewrite (get_snmp_oper_status_spec _ _ _ _ _ _ _ Hw Hne Hs) in H.
  assert (findings hw codes ≠ []) as Hf.
  { intros E. apply (f_equal length) in E.
    unfold findings, findings_from in E. rewrite length_imap in E.
    rewrite (mapM_Ok_length _ _ _ Hs) in E. by destruct vals. }
  destruct (bool_decide (4 ∈ codes)).
  { injection H as <- <- <-. split; [by do 3 right | done]. }
  destruct (failures codes =? 0).
  { injection H as <- <- <-. split; [by left | done]. }
  injection H as <- <- <-. split; [|done].
  destruct (failures codes <? crit); [by do 2 right; left|].
  destruct (failures codes <? warn); [by right; left | by left].
Qed.

(** X1: whatever the walk gives, a verdict of the operational-status
    check has a severity among 0, 1, 2 and 3, at least one finding and no
    metric. *)
Theorem oper_status_verdict_shape s oid hw warn crit ret_code messages perf_data :
  get_snmp_oper_status s oid hw warn crit = Ok (ret_code, messages, perf_data) →
  (ret_code = 0 ∨ ret_code = 1 ∨ ret_code = 2 ∨ ret_code = 3)
  ∧ messages ≠ [] ∧ perf_data = [].
Proof. apply get_snmp_oper_status_shape. Qed.

Lemma oper_status_verdict_shape_witness :
  (2 = 0 ∨ 2 = 1 ∨ 2 = 2 ∨ 2 = 3)
  ∧ ["Failed or error found for fan"; "fan #1 reported as down"] ≠ []
  ∧ @nil string = [].
Proof.
  exact (oper_status_verdict_shape (answering (readings ["2"])) "oid" "fan" 1 2
           2 ["Failed or error found for fan"; "fan #1 reported as down"] []
           eq_refl).
Defined.

(** X2: when [warn <= crit], as with the thresholds of both modes, the
    operational-status check never returns WARNING. *)
Theorem oper_status_never_warning s oid hw warn crit ret_code messages perf_data :
  warn ≤ crit →
  get_snmp_oper_status s oid hw warn crit = Ok (ret_code, messages, perf_data) →
  ret_code ≠ 1.
Proof.
  intros Hwc H.
  destruct (get_snmp_oper_status_Ok_inv _ _ _ _ _ _ H)
    as [[_ [= -> _ _]]|(vals & codes & Hw & Hne & Hs)]; [done|].
  rewrite (get_snmp_oper_status_spec _ _ _ _ _ _ _ Hw Hne Hs) in H.
  destruct (bool_decide (4 ∈ codes)); [by injection H as <- _ _|].
  destruct (failures codes =? 0); [by injection H as <- _ _|].
  injection H as <- _ _.
  destruct (failures codes <? crit) eqn:Hc; [done|].
  destruct (failures codes <? warn) eqn:Hwn; [|done].
  apply Z.ltb_ge in Hc. apply Z.ltb_lt in Hwn. lia.
Qed.

Lemma oper_status_never_warning_witness : (2 : Z) ≠ 1.
Proof.
  refine (oper_status_never_warning (answering (readings ["2"])) "oid" "fan" 1 2
            2 ["Failed or error found for fan"; "fan #1 reported as down"] []
            _ eq_refl).
  lia.
Defined.

Lemma failures_permutation codes1 codes2 :
  codes1 ≡ₚ codes2 → failures codes1 = failures codes2.
Proof. intros H. unfold failures. by rewrite H. Qed.

(** X3: the severity of the operational-status check, and its summary,
    do not depend on the order of the readings. *)
Theorem oper_status_order_independent s1 s2 oid hw warn crit vals1 vals2 codes1 codes2 :
  walk s1 [Varbind1 oid] = Some vals1 → walk s2 [Varbind1 oid] = Some vals2 →
  statuses vals1 = Ok codes1 → statuses vals2 = Ok codes2 →
  codes1 ≡ₚ codes2 →
  severity (get_snmp_oper_status s1 oid hw warn crit)
  = severity (get_snmp_oper_status s2 oid hw warn crit)
  ∧ (4 ∉ codes1 →
     messages_of (get_snmp_oper_status s1 oid hw warn crit) !! 0%nat
     = messages_of (get_snmp_oper_status s2 oid hw warn crit) !! 0%nat).
Proof.
  intros Hw1 Hw2 Hs1 Hs2 Hp.
  pose proof (mapM_Ok_length _ _ _ Hs1) as Hl1.
  pose proof (mapM_Ok_length _ _ _ Hs2) as Hl2.
  pose proof (Permutation_length Hp) as Hl.
  destruct vals1 as [|item1 rest1], vals2 as [|item2 rest2].
  - unfold get_snmp_oper_status. by rewrite Hw1, Hw2.
  - cbn in Hl1, Hl2. lia.
  - cbn in Hl1, Hl2. lia.
  - idtac.
  rewrite (get_snmp_oper_status_spec _ _ _ _ _ _ _ Hw1 ltac:(done) Hs1).
  rewrite (get_snmp_oper_status_spec _ _ _ _ _ _ _ Hw2 ltac:(done) Hs2).
  rewrite <- (failures_permutation _ _ Hp).
  rewrite <- (bool_decide_ext (4 ∈ codes1) (4 ∈ codes2)) by by rewrite Hp.
  split.
  + destruct (bool_decide (4 ∈ codes1)); [done|].
    by destruct (failures codes1 =? 0).
  + intros H4. rewrite bool_decide_eq_false_2 by done.
    by destruct (failures codes1 =? 0).
Qed.

Lemma oper_status_order_independent_witness :
  severity (get_snmp_oper_status (answering (readings ["1"; "2"; "8"])) "oid" "fan" 1 2)
  = severity (get_snmp_oper_status (answering (readings ["8"; "1"; "2"])) "oid" "fan" 1 2).
Proof.
  refine (proj1 (oper_status_order_independent
            (answering (readings ["1"; "2"; "8"])) (answering (readings ["8"; "1"; "2"]))
            "oid" "fan" 1 2 [Some "1"; Some "2"; Some "8"] [Some "8"; Some "1"; Some "2"]
            [1; 2; 8] [8; 1; 2] eq_refl eq_refl eq_refl eq_refl _)).
  change [8; 1; 2] with ([8] ++ [1; 2]). change [1; 2; 8] with ([1; 2] ++ [8]).
  apply Permutation_app_comm.
Defined.

Lemma unreadable_raises item : unreadable item → ∃ e, status_of item = Raise e.
Proof.
  unfold unreadable, status_of. destruct item as [b|]; [|by exists AttributeError].
  cbn [decode_item]. intros [Hd|[Ha Hi]].
  - exists UnicodeDecodeError. by rewrite Hd.
  - exists ValueError. unfold decode. by rewrite (utf8_valid_ascii _ Ha).
Qed.

(** X4: an entry of the walk that is missing, is no UTF-8, or is a text
    in ASCII that is no integer, makes the whole check raise
    ([AttributeError], [UnicodeDecodeError] or [ValueError]): no verdict
    is returned, whatever the other entries are. *)
Theorem oper_status_unreadable_entry s oid hw warn crit vals :
  walk s [Varbind1 oid] = Some vals →
  Exists unreadable vals →
  ∃ e, get_snmp_oper_status s oid hw warn crit = Raise e
       ∧ (e = AttributeError ∨ e = UnicodeDecodeError ∨ e = ValueError).
Proof.
  intros Hw Hbad.
  assert (Exists (fun item => ∃ e, status_of item = Raise e) vals) as Hbad'.
  { eapply Exists_impl; [exact Hbad|]. apply unreadable_raises. }
  destruct (statuses_unreadable _ Hbad') as (e & He & Hk).
  exists e. split; [|done]. by eapply get_snmp_oper_status_raise.
Qed.

Lemma oper_status_unreadable_entry_witness :
  ∃ e, get_snmp_oper_status (answering (Some [Some "1"; Some "up"; Some "4"]))
         "oid" "fan" 1 2 = Raise e
       ∧ (e = AttributeError ∨ e = UnicodeDecodeError ∨ e = ValueError).
Proof.
  refine (oper_status_unreadable_entry
            (answering (Some [Some "1"; Some "up"; Some "4"])) "oid" "fan" 1 2
            [Some "1"; Some "up"; Some "4"] eq_refl _).
  apply Exists_cons_tl, Exists_cons_hd. right. split; reflexivity.
Defined.

Lemma statuses_of_integers (codes : list Z) :
  statuses (Some <$> (str_of_int <$> codes)) = Ok codes.
Proof.
  unfold statuses. induction codes as [|code codes IH]; [done|].
  cbn [fmap list_fmap].
  assert (status_of (Some (str_of_int code)) = Ok code) as Hc.
  { unfold status_of. cbn [decode_item]. rewrite decode_str_of_int.
    cbn [mbind result_bind]. apply int_of_str_of_int. }
  rewrite (mapM_cons_Ok _ _ _ _ Hc). change (list_fmap _ _ ?f ?l) with (f <$> l).
  by rewrite IH.
Qed.

(** X5: on a walk that gives the decimal texts of integers, one at
    least, the check always returns a verdict, with its finding on every
    component. *)
Theorem oper_status_on_integers s oid hw warn crit (codes : list Z) :
  walk s [Varbind1 oid] = readings (str_of_int <$> codes) → codes ≠ [] →
  ∃ ret_code summary,
    get_snmp_oper_status s oid hw warn crit
    = Ok (ret_code, summary ++ findings hw codes, [])
    ∧ (length summary ≤ 1)%nat.
Proof.
  intros Hw Hne.
  assert (Some <$> (str_of_int <$> codes) ≠ []) as Hne'.
  { intros E. apply Hne. destruct codes; [done|]. cbn in E. discriminate. }
  rewrite (get_snmp_oper_status_spec _ _ _ _ _ _ _ Hw Hne' (statuses_of_integers _)).
  destruct (bool_decide (4 ∈ codes)); [exists 3, []; split; [done|cbn; lia]|].
  destruct (failures codes =? 0).
  - exists 0, ["All " +:+ hw +:+ " (s) OK"]. split; [done|cbn; lia].
  - eexists _, ["Failed or error found for " +:+ hw]. split; [done|cbn; lia].
Qed.

Lemma oper_status_on_integers_witness :
  ∃ ret_code summary,
    get_snmp_oper_status (answering (readings ["1"; "7"; "-3"])) "oid" "PSU" 0 1
    = Ok (ret_code, summary ++ findings "PSU" [1; 7; -3], [])
    ∧ (length summary ≤ 1)%nat.
Proof.
  refine (oper_status_on_integers (answering (readings ["1"; "7"; "-3"]))
            "oid" "PSU" 0 1 [1; 7; -3] eq_refl _).
  discriminate.
Defined.

(** ** The temperature check: further properties *)

Lemma temperature_loop_raise warn crit vals : ∀ e index ret_code messages perf_data,
  temperatures vals = Raise e →
  temperature_loop warn crit index vals ret_code messages perf_data = Raise e.
Proof.
  unfold temperatures.
  induction vals as [|temp rest IH]; intros e i rc m p H; [discriminate|].
  cbn [temperature_loop].
  destruct (int_of_item temp) as [t|e'] eqn:Ht.
  - rewrite (mapM_cons_Ok _ _ _ _ Ht) in H.
    destruct (mapM int_of_item rest) as [ts|e''] eqn:Hr; [discriminate|].
    injection H as ->. cbn [mbind result_bind].
    destruct ((crit <? t) && (rc <? 2)); [by apply IH|].
    destruct ((warn <? t) && (rc <? 1)); by apply IH.
  - rewrite (mapM_Raise_first _ _ _ _ Ht) in H. by injection H as ->.
Qed.

Lemma temperature_severity_range warn crit temps :
  0 ≤ temperature_severity warn crit temps ≤ 2.
Proof.
  unfold temperature_severity.
  destruct (existsb (Z.ltb crit) temps), (existsb (Z.ltb warn) temps); lia.
Qed.

Lemma decode_all_length got vals :
  decode_all got = Ok vals → ∃ l, got = Some l ∧ length vals = length l.
Proof.
  destruct got as [l|]; [|discriminate]. cbn [decode_all]. intros H.
  exists l. split; [done|]. by apply mapM_Ok_length in H.
Qed.

Lemma decode_all_missing l :
  None ∈ l →
  ∃ e, decode_all (Some l) = Raise e ∧ (e = AttributeError ∨ e = UnicodeDecodeError).
Proof.
  cbn [decode_all]. induction l as [|b l IH]; intros Hin; [by apply elem_of_nil in Hin|].
  destruct (Some <$> decode_item b) as [v|e] eqn:Hb.
  - apply elem_of_cons in Hin as [<-|Hin]; [discriminate|].
    destruct (IH Hin) as (e & He & Hk). exists e. split; [|done].
    by rewrite (mapM_cons_Ok (fun b => Some <$> decode_item b) b l v Hb), He.
  - exists e.
    split; [by apply (mapM_Raise_first (fun b => Some <$> decode_item b))|].
    destruct b as [b|]; cbn in Hb; [|injection Hb as <-; by left].
    unfold decode in Hb. destruct (utf8_valid b); [discriminate|].
    injection Hb as <-. by right.
Qed.

(** The ways the temperature check can end. *)
Lemma get_temperatures_Ok_inv s warn crit v :
  get_temperatures s warn crit = Ok v →
  (get s temperature_varlist = Some [] ∧ v = unable)
  ∨ ∃ vals temps,
      decode_all (get s temperature_varlist) = Ok vals ∧ vals ≠ []
      ∧ temperatures vals = Ok temps.
Proof.
  intros H. unfold get_temperatures in H.
  destruct (decode_all (get s temperature_varlist)) as [vals|e] eqn:Hd; [|discriminate].
  cbn [mbind result_bind] in H.
  destruct (decode_all_length _ _ Hd) as (l & Hg & Hlen).
  destruct vals as [|temp rest].
  - left. destruct l; [|discriminate]. split; [done|]. by injection H.
  - right. exists (temp :: rest).
    destruct (temperatures (temp :: rest)) as [temps|e] eqn:Ht; [by exists temps|].
    unfold incomplete in H.
    rewrite (bool_decide_eq_false_2 _ (decode_all_present _ _ Hd)) in H.
    cbn [not_vals orb] in H.
    by rewrite (temperature_loop_raise _ _ _ _ _ _ _ _ Ht) in H.
Qed.

(** X6: the temperature check returns UNKNOWN exactly when the request
    comes back as an empty tuple.  When it comes back as [None] the check
    raises [TypeError], and when an entry of the tuple is [None] it raises
    too: the entries are decoded before the test for a missing one. *)
Theorem temperature_unknown_only_when_empty s warn crit :
  (severity (get_temperatures s warn crit) = Some 3
   ↔ get s temperature_varlist = Some [])
  ∧ (get s temperature_varlist = None →
     get_temperatures s warn crit = Raise TypeError)
  ∧ (∀ l, get s temperature_varlist = Some l → None ∈ l →
       ∃ e, get_temperatures s warn crit = Raise e
            ∧ (e = AttributeError ∨ e = UnicodeDecodeError)).
Proof.
  split; [split|split].
  - intros H.
    destruct (get_temperatures s warn crit) as [[[rc m] p]|e] eqn:Hr; [|discriminate].
    injection H as ->.
    destruct (get_temperatures_Ok_inv _ _ _ _ Hr)
      as [[Hg _]|(vals & temps & Hd & Hne & Ht)]; [done|].
    rewrite (get_temperatures_spec _ _ _ _ _ Hd Hne Ht) in Hr.
    pose proof (temperature_severity_range warn crit temps) as Hrange.
    destruct (temperature_severity warn crit temps =? 0).
    + destruct (true_div (sum temps) (Z.of_nat (length temps))); cbn in Hr; [|done].
      by injection Hr.
    + injection Hr as Hr _ _. lia.
  - intros H. unfold get_temperatures. by rewrite H.
  - intros H. unfold get_temperatures. by rewrite H.
  - intros l Hg Hin. destruct (decode_all_missing _ Hin) as (e & He & Hk).
    exists e. split; [|done]. unfold get_temperatures. by rewrite Hg, He.
Qed.

Lemma temperature_unknown_only_when_empty_witness :
  ∃ e, get_temperatures (answering (Some [Some "30"; None])) 50 60 = Raise e
       ∧ (e = AttributeError ∨ e = UnicodeDecodeError).
Proof.
  refine (proj2 (proj2 (temperature_unknown_only_when_empty
                          (answering (Some [Some "30"; None])) 50 60))
            [Some "30"; None] eq_refl _).
  apply list_elem_of_further, list_elem_of_here.
Defined.

Lemma temperature_counts warn crit vals : ∀ temps before,
  length vals = length temps →
  let a := temperature_severity warn crit before in
  let b := temperature_severity warn crit (before ++ temps) in
  a ≤ b
  ∧ length (temperature_findings warn crit before vals temps) = length vals
  ∧ (length (temperature_metrics warn crit before vals temps) ≤ length vals)%nat
  ∧ (length vals
     ≤ length (temperature_metrics warn crit before vals temps) + Z.to_nat (b - a))%nat
  ∧ (a < b →
     (length (temperature_metrics warn crit before vals temps) < length vals)%nat).
Proof.
  induction vals as [|temp rest IH]; intros temps before Hlen; cbn zeta.
  - destruct temps; [|done]. rewrite app_nil_r. cbn. repeat split; lia.
  - destruct temps as [|t temps']; [done|]. injection Hlen as Hlen.
    rewrite temperature_findings_cons, temperature_metrics_cons.
    specialize (IH temps' (before ++ [t]) Hlen). cbn zeta in IH.
    rewrite <- (app_assoc before [t] temps') in IH. cbn [app] in IH.
    destruct IH as (Hab & Hf & Hm1 & Hm2 & Hm3).
    pose proof (temperature_severity_snoc warn crit before t) as Hs.
    pose proof (temperature_severity_range warn crit before) as Hr.
    unfold raises_severity.
    cbn [length]. rewrite length_app.
    destruct (raises_to_critical warn crit before t) eqn:Hc.
    + unfold raises_to_critical in Hc. apply andb_true_iff in Hc as [_ Hc].
      apply Z.ltb_lt in Hc. cbn [orb length]. repeat split; lia.
    + destruct (raises_to_warning warn crit before t) eqn:Hw.
      * unfold raises_to_warning in Hw. apply andb_true_iff in Hw as [_ Hw].
        apply Z.ltb_lt in Hw. cbn [orb length]. repeat split; lia.
      * cbn [orb length]. repeat split; lia.
Qed.

(** X7: in a verdict of the temperature check on readings there is one
    finding per reading, and the summary when the severity is OK; every
    reading has a metric when the severity is OK, and otherwise at least
    one reading and at most as many readings as the severity counts (one
    for WARNING, two for CRITICAL) go without. *)
Theorem temperature_verdict_counts s warn crit vals ret_code messages perf_data :
  decode_all (get s temperature_varlist) = Ok vals → vals ≠ [] →
  get_temperatures s warn crit = Ok (ret_code, messages, perf_data) →
  0 ≤ ret_code ≤ 2
  ∧ length messages = (length vals + (if (ret_code =? 0)%Z then 1 else 0))%nat
  ∧ (length perf_data ≤ length vals)%nat
  ∧ (length vals ≤ length perf_data + Z.to_nat ret_code)%nat
  ∧ (0 < ret_code → (length perf_data < length vals)%nat).
Proof.
  intros Hd Hne Hr.
  destruct (get_temperatures_Ok_inv _ _ _ _ Hr)
    as [[Hg _]|(vals' & temps & Hd' & _ & Ht)].
  { rewrite Hg in Hd. injection Hd as <-. done. }
  rewrite Hd in Hd'. injection Hd' as <-.
  rewrite (get_temperatures_spec _ _ _ _ _ Hd Hne Ht) in Hr.
  destruct (temperature_counts warn crit vals temps []
              (eq_sym (mapM_Ok_length _ _ _ Ht))) as (Hab & Hf & Hm1 & Hm2 & Hm3).
  cbn [app] in *. change (temperature_severity warn crit []) with 0 in *.
  rewrite Z.sub_0_r in Hm2.
  pose proof (temperature_severity_range warn crit temps) as Hrange.
  destruct (temperature_severity warn crit temps =? 0) eqn:H0.
  - apply Z.eqb_eq in H0. rewrite H0 in *.
    destruct (true_div (sum temps) (Z.of_nat (length temps))); cbn in Hr; [|done].
    injection Hr as <- <- <-. cbn [length Z.eqb]. repeat split; lia.
  - apply Z.eqb_neq in H0. injection Hr as <- <- <-.
    rewrite (proj2 (Z.eqb_neq _ 0) H0). repeat split; lia.
Qed.

Lemma temperature_verdict_counts_witness :
  0 ≤ 2 ≤ 2
  ∧ length ["Temperature sensor at 55°C exceeds warning threshold (50°C)";
            "Temperature sensor at 70°C exceeds critical threshold (60°C)";
            "Temperature sensor at 71°C"]
    = (length [Some "55"; Some "70"; Some "71"] + (if (2 =? 0)%Z then 1 else 0))%nat
  ∧ (length ["temp3=71°C;50;60"] ≤ length [Some "55"; Some "70"; Some "71"])%nat
  ∧ (length [Some "55"; Some "70"; Some "71"]
     ≤ length ["temp3=71°C;50;60"] + Z.to_nat 2)%nat
  ∧ (0 < 2 → (length ["temp3=71°C;50;60"] < length [Some "55"; Some "70"; Some "71"])%nat).
Proof.
  refine (temperature_verdict_counts (answering (readings ["55"; "70"; "71"])) 50 60
            [Some "55"; Some "70"; Some "71"] 2 _ _ eq_refl _ eq_refl).
  discriminate.
Defined.

Lemma temperature_severity_app warn crit temps more :
  temperature_severity warn crit temps
  ≤ temperature_severity warn crit (temps ++ more).
Proof.
  unfold temperature_severity. rewrite !existsb_app.
  destruct (existsb (Z.ltb crit) temps), (existsb (Z.ltb warn) temps),
    (existsb (Z.ltb crit) more), (existsb (Z.ltb warn) more); cbn; lia.
Qed.

(** X8: more readings never lower the severity of the temperature
    check: when it returns on some readings and on these readings
    followed by others, the second severity is at least the first. *)
Theorem temperature_severity_monotone s1 s2 warn crit vals1 vals2 temps more a b :
  decode_all (get s1 temperature_varlist) = Ok vals1 →
  decode_all (get s2 temperature_varlist) = Ok vals2 →
  temperatures vals1 = Ok temps → temperatures vals2 = Ok (temps ++ more) →
  temps ≠ [] →
  severity (get_temperatures s1 warn crit) = Some a →
  severity (get_temperatures s2 warn crit) = Some b →
  a ≤ b.
Proof.
  intros Hd1 Hd2 Ht1 Ht2 Hne Ha Hb.
  assert (vals1 ≠ []) as Hne1.
  { intros ->. by apply mapM_Ok_nil in Ht1. }
  assert (vals2 ≠ []) as Hne2.
  { intros ->. apply mapM_Ok_nil in Ht2. by destruct temps. }
  rewrite (get_temperatures_spec _ _ _ _ _ Hd1 Hne1 Ht1) in Ha.
  rewrite (get_temperatures_spec _ _ _ _ _ Hd2 Hne2 Ht2) in Hb.
  pose proof (temperature_severity_app warn crit temps more) as Hle.
  pose proof (temperature_severity_range warn crit temps) as Hr.
  assert (a = temperature_severity warn crit temps) as ->.
  { destruct (temperature_severity warn crit temps =? 0) eqn:H0.
    - apply Z.eqb_eq in H0. rewrite H0.
      destruct (true_div (sum temps) (Z.of_nat (length temps))); cbn in Ha; [|done].
      by injection Ha.
    - by injection Ha. }
  assert (b = temperature_severity warn crit (temps ++ more)) as ->; [|done].
  destruct (temperature_severity warn crit (temps ++ more) =? 0) eqn:H0.
  - apply Z.eqb_eq in H0. rewrite H0.
    destruct (true_div (sum (temps ++ more)) (Z.of_nat (length (temps ++ more))));
      cbn in Hb; [|done].
    by injection Hb.
  - by injection Hb.
Qed.

Lemma temperature_severity_monotone_witness : 1 ≤ 2.
Proof.
  refine (temperature_severity_monotone
            (answering (readings ["55"])) (answering (readings ["55"; "40"; "61"]))
            50 60 [Some "55"] [Some "55"; Some "40"; Some "61"] [55] [40; 61] 1 2
            eq_refl eq_refl eq_refl eq_refl _ eq_refl eq_refl).
  discriminate.
Defined.

(** ** Readings in range *)

Lemma round_ratio_exponent n d :
  let e := Z.max (floor_log2_ratio n d - 52) (-1074) in
  (round_ratio n d).2 = e ∨ (round_ratio n d).2 = e + 1.
Proof.
  unfold round_ratio. cbn zeta.
  match goal with |- context [if ?c then (_, _) else (_, _)] => destruct c end;
    cbn [snd]; [by right | by left].
Qed.

(** A quotient below [2^1023] in absolute value is within the range of
    a float. *)
Lemma true_div_in_range a b :
  b ≠ 0 → Z.abs a < 2 ^ 1023 * Z.abs b → ∃ x, true_div a b = Ok x.
Proof.
  intros Hb Hlt. unfold true_div. rewrite (proj2 (Z.eqb_neq b 0) Hb).
  destruct (a =? 0) eqn:Ha; [by eexists|]. apply Z.eqb_neq in Ha.
  pose proof (round_ratio_exponent (Z.abs a) (Z.abs b)) as He. cbn zeta in He.
  destruct (floor_log2_ratio_spec (Z.abs a) (Z.abs b) ltac:(lia) ltac:(lia))
    as [Hk _].
  set (k := floor_log2_ratio (Z.abs a) (Z.abs b)) in *. cbn zeta in Hk.
  assert (k ≤ 1022) as Hk'.
  { destruct (Z_lt_le_dec 1022 k) as [Hgt|]; [exfalso|done].
    destruct (Hk ltac:(lia)) as [Hlo _].
    assert (2 ^ 1023 ≤ 2 ^ k) by (apply Z.pow_le_mono_r; lia).
    assert (2 ^ 1023 * Z.abs b ≤ 2 ^ k * Z.abs b)
      by (apply Z.mul_le_mono_nonneg_r; lia).
    lia. }
  destruct (round_ratio (Z.abs a) (Z.abs b)) as [m x]. cbn [snd] in He.
  destruct (971 <? x) eqn:Hx; [|by eexists].
  apply Z.ltb_lt in Hx. lia.
Qed.

Lemma sum_bound M temps :
  Forall (fun t => Z.abs t ≤ M) temps →
  Z.abs (sum temps) ≤ M * Z.of_nat (length temps).
Proof.
  induction 1 as [|t temps Ht _ IH]; [cbn; lia|].
  rewrite sum_cons. cbn [length]. lia.
Qed.

Lemma temperatures_of_integers (temps : list Z) :
  decode_all (readings (str_of_int <$> temps)) = Ok (Some <$> (str_of_int <$> temps))
  ∧ temperatures (Some <$> (str_of_int <$> temps)) = Ok temps.
Proof.
  unfold readings, temperatures. cbn [decode_all].
  induction temps as [|t temps [IH1 IH2]]; [done|].
  cbn [fmap list_fmap]. split.
  - assert (Some <$> decode_item (Some (str_of_int t)) = Ok (Some (str_of_int t)))
      as Hd by (cbn [decode_item]; by rewrite decode_str_of_int).
    rewrite (mapM_cons_Ok (fun b => Some <$> decode_item b) _ _ _ Hd).
    change (list_fmap _ _ ?f ?l) with (f <$> l). by rewrite IH1.
  - assert (int_of_item (Some (str_of_int t)) = Ok t) as Hi
      by apply int_of_str_of_int.
    rewrite (mapM_cons_Ok _ _ _ _ Hi).
    change (list_fmap _ _ ?f ?l) with (f <$> l). by rewrite IH2.
Qed.

(** X9: on a request that gives the decimal texts of integers, one at
    least and each below [2^1023] in absolute value, the temperature check
    always returns a verdict, with the severity of the readings. *)
Theorem temperature_on_integers s warn crit (temps : list Z) :
  get s temperature_varlist = readings (str_of_int <$> temps) → temps ≠ [] →
  Forall (fun t => Z.abs t < 2 ^ 1023) temps →
  ∃ messages perf_data,
    get_temperatures s warn crit
    = Ok (temperature_severity warn crit temps, messages, perf_data).
Proof.
  intros Hg Hne Hall.
  destruct (temperatures_of_integers temps) as [Hd Ht]. rewrite <- Hg in Hd.
  assert (Some <$> (str_of_int <$> temps) ≠ []) as Hne'.
  { intros E. apply Hne. destruct temps; [done|]. cbn in E. discriminate. }
  rewrite (get_temperatures_spec _ _ _ _ _ Hd Hne' Ht).
  destruct (temperature_severity warn crit temps =? 0) eqn:H0; [|by eexists _, _].
  apply Z.eqb_eq in H0. rewrite H0.
  destruct (true_div_in_range (sum temps) (Z.of_nat (length temps))) as [x ->].
  - destruct temps; [done|cbn; lia].
  - assert (Forall (fun t => Z.abs t ≤ 2 ^ 1023 - 1) temps) as Hall'.
    { eapply Forall_impl; [done|]. cbn. intros t. lia. }
    pose proof (sum_bound _ _ Hall') as Hs.
    assert (0 < Z.of_nat (length temps)) by (destruct temps; [done|cbn; lia]).
    rewrite (Z.abs_eq (Z.of_nat _)) by lia.
    generalize dependent (2 ^ 1023). intros. nia.
  - cbn. by eexists _, _.
Qed.

Lemma temperature_on_integers_witness :
  ∃ messages perf_data,
    get_temperatures (answering (readings ["-40"; "2147483647"])) 50 60
    = Ok (temperature_severity 50 60 [-40; 2147483647], messages, perf_data).
Proof.
  refine (temperature_on_integers (answering (readings ["-40"; "2147483647"])) 50 60
            [-40; 2147483647] eq_refl _ _).
  - discriminate.
  - repeat constructor.
Defined.

(** ** The health check: further properties *)

Lemma decode_all_texts got vals :
  decode_all got = Ok vals → ∃ texts, vals = Some <$> texts.
Proof.
  destruct got as [l|]; [|discriminate]. cbn [decode_all]. revert vals.
  induction l as [|b l IH]; intros vals H.
  - apply mapM_Ok_nil in H as ->. by exists [].
  - destruct (mapM_Ok_cons _ _ _ _ H) as (v & vals' & -> & Hv & H').
    destruct (IH _ H') as [texts ->].
    destruct (decode_item b) as [text|]; [|discriminate].
    injection Hv as <-. by exists (text :: texts).
Qed.

Lemma incomplete_texts texts : incomplete (Some <$> texts) = bool_decide (texts = []).
Proof.
  unfold incomplete.
  rewrite (bool_decide_eq_false_2 (None ∈ Some <$> texts)).
  - by destruct texts.
  - rewrite list_elem_of_fmap. by intros (text & [=] & _).
Qed.

Lemma index_texts (texts : list string) (i : nat) :
  index (Some <$> texts) i
  = match texts !! i with Some t => Ok (Some t) | None => Raise IndexError end.
Proof. unfold index. rewrite list_lookup_fmap. by destruct (texts !! i). Qed.

(** X10: an answer to a request of the health check that holds entries,
    but fewer than the check reads, makes it raise [IndexError]: fewer
    than three for the system, fewer than four for the chassis and for the
    card. *)
Theorem system_info_short_answer s :
  (∀ texts, answered (get s sys_varlist) texts →
     (0 < length texts < 3)%nat → get_system_info s = Raise IndexError)
  ∧ (∀ name oid descr texts,
       answered (get s sys_varlist) [name; oid; descr] →
       answered (get s chassis_varlist) texts →
       (0 < length texts < 4)%nat → get_system_info s = Raise IndexError)
  ∧ (∀ name oid descr ctype crev cpn ctag texts,
       answered (get s sys_varlist) [name; oid; descr] →
       answered (get s chassis_varlist) [ctype; crev; cpn; ctag] →
       answered (get s card_varlist) texts →
       (0 < length texts < 4)%nat → get_system_info s = Raise IndexError).
Proof.
  unfold answered. repeat split.
  - intros texts H1 Hlen. unfold get_system_info. rewrite H1.
    cbn [mbind result_bind]. rewrite incomplete_texts, !index_texts.
    destruct texts as [|a [|b [|c texts]]]; cbn in Hlen |- *; try lia; done.
  - intros name oid descr texts H1 H2 Hlen. unfold get_system_info. rewrite H1, H2.
    cbn [mbind result_bind]. rewrite !incomplete_texts, !index_texts.
    cbn [bool_decide decide_rel lookup list_lookup mbind result_bind].
    destruct texts as [|a [|b [|c [|d texts]]]]; cbn in Hlen |- *; try lia; done.
  - intros name oid descr ctype crev cpn ctag texts H1 H2 H3 Hlen.
    unfold get_system_info. rewrite H1, H2, H3.
    cbn [mbind result_bind]. rewrite !incomplete_texts, !index_texts.
    cbn [bool_decide decide_rel lookup list_lookup mbind result_bind].
    destruct texts as [|a [|b [|c [|d texts]]]]; cbn in Hlen |- *; try lia; done.
Qed.

Lemma system_info_short_answer_witness :
  get_system_info
    (health_session (readings ["sw1"; ".1.3.6.1.4.1.674"; "Dell EMC OS10"])
       (readings ["2"; "A01"]) None)
  = Raise IndexError.
Proof.
  refine (proj1 (proj2 (system_info_short_answer
                          (health_session
                             (readings ["sw1"; ".1.3.6.1.4.1.674"; "Dell EMC OS10"])
                             (readings ["2"; "A01"]) None)))
            "sw1" ".1.3.6.1.4.1.674" "Dell EMC OS10" ["2"; "A01"] eq_refl eq_refl _).
  cbn. lia.
Defined.

(** X11: when the three requests come back complete but the status of
    the card is a text in ASCII that is no integer, the health check
    raises the [ValueError] of [int] and returns no verdict. *)
Theorem system_info_status_not_integer
    s name oid descr ctype crev cpn ctag card rev pn status tag :
  answered (get s sys_varlist) [name; oid; descr] →
  answered (get s chassis_varlist) [ctype; crev; cpn; ctag] →
  answered (get s card_varlist) [card; rev; pn; status; tag] →
  is_ascii status = true → int_of_str status = Raise ValueError →
  get_system_info s = Raise ValueError.
Proof.
  unfold answered, get_system_info. intros -> -> -> _ He.
  cbn [mbind result_bind fmap list_fmap].
  change (incomplete [Some name; Some oid; Some descr]) with false.
  change (incomplete [Some ctype; Some crev; Some cpn; Some ctag]) with false.
  change (incomplete [Some card; Some rev; Some pn; Some status; Some tag]) with false.
  cbn [index lookup list_lookup mbind result_bind option_bind int_of_item fmt default app].
  by rewrite He.
Qed.

Lemma system_info_status_not_integer_witness :
  get_system_info
    (health_session (readings ["sw1"; ".1.3.6.1.4.1.674"; "Dell EMC OS10"])
       (readings ["2"; "A01"; "0XYZ"; "ABC1234"])
       (readings ["S4048-ON"; "A01"; "0XYZ"; "ready"; "ABC1234"]))
  = Raise ValueError.
Proof.
  refine (system_info_status_not_integer
            (health_session (readings ["sw1"; ".1.3.6.1.4.1.674"; "Dell EMC OS10"])
               (readings ["2"; "A01"; "0XYZ"; "ABC1234"])
               (readings ["S4048-ON"; "A01"; "0XYZ"; "ready"; "ABC1234"]))
            "sw1" ".1.3.6.1.4.1.674" "Dell EMC OS10" "2" "A01" "0XYZ" "ABC1234"
            "S4048-ON" "A01" "0XYZ" "ready" "ABC1234"
            eq_refl eq_refl eq_refl eq_refl eq_refl).
Defined.

Lemma decode_all_empty got : decode_all got = Ok [] → got = Some [].
Proof.
  intros H. destruct (decode_all_length _ _ H) as (l & -> & Hl). by destruct l.
Qed.

(** The shape of a verdict of the health check. *)
Lemma get_system_info_shape s ret_code messages perf_data :
  get_system_info s = Ok (ret_code, messages, perf_data) →
  perf_data = []
  ∧ ((ret_code = 3
      ∧ messages = ["Unable to get SNMP metrics from server !"]
      ∧ (get s sys_varlist = Some [] ∨ get s chassis_varlist = Some []
         ∨ get s card_varlist = Some []))
     ∨ (0 ≤ ret_code ≤ 2 ∧ length messages = 3%nat)).
Proof.
  intros H. unfold get_system_info in H.
  destruct (decode_all (get s sys_varlist)) as [vals1|] eqn:H1; [|done].
  cbn [mbind result_bind] in H.
  destruct (decode_all_texts _ _ H1) as [t1 ->]. rewrite incomplete_texts in H.
  case_bool_decide as E1.
  { subst t1. injection H as <- <- <-. split; [done|]. left.
    repeat split. left. by apply decode_all_empty. }
  rewrite !index_texts in H.
  destruct (t1 !! 0%nat); [|done]. destruct (t1 !! 1%nat); [|done].
  destruct (t1 !! 2%nat); [|done]. cbn [mbind result_bind] in H.
  destruct (decode_all (get s chassis_varlist)) as [vals2|] eqn:H2; [|done].
  cbn [mbind result_bind] in H.
  destruct (decode_all_texts _ _ H2) as [t2 ->]. rewrite incomplete_texts in H.
  case_bool_decide as E2.
  { subst t2. injection H as <- <- <-. split; [done|]. left.
    repeat split. right. left. by apply decode_all_empty. }
  rewrite !index_texts in H.
  destruct (t2 !! 0%nat); [|done]. destruct (t2 !! 1%nat); [|done].
  destruct (t2 !! 2%nat); [|done]. destruct (t2 !! 3%nat); [|done].
  cbn [mbind result_bind] in H.
  destruct (decode_all (get s card_varlist)) as [vals3|] eqn:H3; [|done].
  cbn [mbind result_bind] in H.
  destruct (decode_all_texts _ _ H3) as [t3 ->]. rewrite incomplete_texts in H.
  case_bool_decide as E3.
  { subst t3. injection H as <- <- <-. split; [done|]. left.
    repeat split. right. right. by apply decode_all_empty. }
  rewrite !index_texts in H.
  destruct (t3 !! 3%nat); [|done]. cbn [mbind result_bind int_of_item] in H.
  destruct (int_of_str _) as [code|]; [|done]. cbn [mbind result_bind] in H.
  destruct (t3 !! 0%nat); [|done]. destruct (t3 !! 1%nat); [|done].
  destruct (t3 !! 2%nat); [|done]. destruct (t3 !! 4%nat); [|done].
  cbn [mbind result_bind] in H.
  pose proof (f_equal severity H) as Hs.
  pose proof (f_equal (fun r => length (messages_of r)) H) as Hm.
  pose proof (f_equal perf_data_of H) as Hp. clear H.
  cbn [severity] in Hs. cbn [messages_of length app] in Hm. cbn [perf_data_of] in Hp.
  injection Hs as Hs. split; [done|]. right. split; [|done].
  rewrite <- Hs. destruct (code =? 1); cbn [negb]; [lia|].
  destruct (((code =? 4) || (code =? 6)) && (0 <? 1)); lia.
Qed.

(** X12: a verdict of the health check has no metric; it is either
    UNKNOWN with the one finding "Unable to get SNMP metrics from server !",
    and then one of the three requests came back as an empty tuple, or it
    has the three findings and a severity among 0, 1 and 2. *)
Theorem system_info_verdict_shape s ret_code messages perf_data :
  get_system_info s = Ok (ret_code, messages, perf_data) →
  perf_data = []
  ∧ ((ret_code = 3
      ∧ messages = ["Unable to get SNMP metrics from server !"]
      ∧ (get s sys_varlist = Some [] ∨ get s chassis_varlist = Some []
         ∨ get s card_varlist = Some []))
     ∨ (0 ≤ ret_code ≤ 2 ∧ length messages = 3%nat)).
Proof. apply get_system_info_shape. Qed.

Lemma system_info_verdict_shape_witness :
  @nil string = []
  ∧ (((3 : Z) = 3
      ∧ ["Unable to get SNMP metrics from server !"]
        = ["Unable to get SNMP metrics from server !"]
      ∧ (get (answering (Some [])) sys_varlist = Some []
         ∨ get (answering (Some [])) chassis_varlist = Some []
         ∨ get (answering (Some [])) card_varlist = Some []))
     ∨ (0 ≤ 3 ≤ 2 ∧ length ["Unable to get SNMP metrics from server !"] = 3%nat)).
Proof.
  exact (system_info_verdict_shape (answering (Some [])) 3
           ["Unable to get SNMP metrics from server !"] [] eq_refl).
Defined.

Lemma failures_nonneg codes : 0 ≤ failures codes.
Proof. unfold failures. lia. Qed.

(** ** The main program *)

Lemma get_args_mode args :
  ∃ warn crit,
    get_args args = (host args, community args, mode args, warn, crit)
    ∧ (mode args = "fans" → warn = 1 ∧ crit = 2)
    ∧ (mode args = "power" → warn = 0 ∧ crit = 1)
    ∧ (mode args ≠ "fans" → mode args ≠ "power" →
       warn = warning args ∧ crit = critical args).
Proof.
  unfold get_args.
  destruct (String.eqb (mode args) "fans") eqn:Hf.
  { apply String.eqb_eq in Hf. exists 1, 2. cbn. rewrite Hf. by repeat split. }
  destruct (String.eqb (mode args) "power") eqn:Hp.
  { apply String.eqb_eq in Hp. exists 0, 1. cbn. rewrite Hp. by repeat split. }
  apply String.eqb_neq in Hf, Hp. exists (warning args), (critical args).
  by repeat split.
Qed.

(** The main program, mode by mode. *)
Lemma main_cases connect args :
  let s := connect (host args) (community args) in
  (mode args = "fans"
   ∧ main connect args = rendered <$> get_snmp_oper_status s fan_oid "fan" 1 2)
  ∨ (mode args = "power"
     ∧ main connect args = rendered <$> get_snmp_oper_status s psu_oid "PSU" 0 1)
  ∨ (mode args = "temp"
     ∧ main connect args
       = rendered <$> get_temperatures s (warning args) (critical args))
  ∨ (mode args = "health"
     ∧ main connect args = rendered <$> get_system_info s)
  ∨ (mode args ≠ "fans" ∧ mode args ≠ "power" ∧ mode args ≠ "temp"
     ∧ mode args ≠ "health" ∧ main connect args = Ok ("UNKNOWN: ", 3)).
Proof.
  cbn zeta. unfold main.
  destruct (get_args_mode args) as (warn & crit & -> & Hf & Hp & Ho).
  destruct (String.eqb (mode args) "fans") eqn:Ef.
  { left. apply String.eqb_eq in Ef. destruct (Hf Ef) as [-> ->].
    split; [done|]. rewrite Ef. cbn [String.eqb Ascii.eqb Bool.eqb].
    by destruct (get_snmp_oper_status _ _ _ _ _) as [[[rc m] p]|]. }
  destruct (String.eqb (mode args) "power") eqn:Ep.
  { right; left. apply String.eqb_eq in Ep. destruct (Hp Ep) as [-> ->].
    split; [done|]. rewrite Ep. cbn [String.eqb Ascii.eqb Bool.eqb mbind result_bind].
    by destruct (get_snmp_oper_status _ _ _ _ _) as [[[rc m] p]|]. }
  assert (mode args ≠ "fans") as Nf by by apply String.eqb_neq.
  assert (mode args ≠ "power") as Np by by apply String.eqb_neq.
  destruct (Ho Nf Np) as [-> ->]. cbn [mbind result_bind].
  destruct (String.eqb (mode args) "temp") eqn:Et.
  { do 2 right; left. apply String.eqb_eq in Et. split; [done|]. rewrite Et.
    cbn [String.eqb Ascii.eqb Bool.eqb].
    by destruct (get_temperatures _ _ _) as [[[rc m] p]|]. }
  cbn [mbind result_bind].
  destruct (String.eqb (mode args) "health") eqn:Eh.
  { do 3 right; left. apply String.eqb_eq in Eh. split; [done|].
    by destruct (get_system_info _) as [[[rc m] p]|]. }
  do 4 right. apply String.eqb_neq in Et, Eh. by repeat split.
Qed.

Lemma rendered_status v : (rendered v).2 = v.1.1.
Proof. by destruct v as [[rc m] p]. Qed.

(** X13: in mode power the thresholds are 0 and 1 whatever the command
    line gives, and the failure counter is never below them: on a walk of
    the power supplies that gives readings the program exits with status 3
    when a reading has code 4 and with status 0 otherwise, however many
    power supplies are down. *)
Theorem main_power_mode connect args vals codes :
  mode args = "power" →
  walk (connect (host args) (community args)) [Varbind1 psu_oid] = Some vals →
  vals ≠ [] → statuses vals = Ok codes →
  ∃ output,
    main connect args = Ok (output, if bool_decide (4 ∈ codes) then 3 else 0).
Proof.
  intros Hm Hw Hne Hs.
  destruct (main_cases connect args)
    as [[E _]|[[_ ->]|[[E _]|[[E _]|E]]]]; try (rewrite Hm in E; discriminate).
  - rewrite (get_snmp_oper_status_spec _ _ _ _ _ _ _ Hw Hne Hs).
    destruct (bool_decide (4 ∈ codes)); [by eexists|].
    destruct (failures codes =? 0) eqn:H0; [by eexists|].
    apply Z.eqb_neq in H0. pose proof (failures_nonneg codes) as Hf.
    rewrite (proj2 (Z.ltb_ge (failures codes) 1)) by lia.
    rewrite (proj2 (Z.ltb_ge (failures codes) 0)) by lia.
    by eexists.
  - by destruct E as (_ & E & _).
Qed.

Lemma main_power_mode_witness :
  ∃ output,
    main (fun _ _ => answering (readings ["2"; "2"]))
      {| host := "10.0.0.1"; community := "public"; mode := "power";
         warning := 5; critical := 9 |}
    = Ok (output, if bool_decide (4 ∈ [2; 2]) then 3 else 0).
Proof.
  refine (main_power_mode (fun _ _ => answering (readings ["2"; "2"]))
            {| host := "10.0.0.1"; community := "public"; mode := "power";
               warning := 5; critical := 9 |}
            [Some "2"; Some "2"] [2; 2] eq_refl eq_refl _ eq_refl).
  discriminate.
Defined.

(** X14: in mode fans the thresholds are 1 and 2 whatever the command
    line gives: on a walk of the fans that gives readings the program
    exits with status 3 when a reading has code 4, else with status 2
    (CRITICAL) when exactly one fan is not up, and else with status 0, so
    also when two or more fans are not up; it never exits with status 1. *)
Theorem main_fans_mode connect args vals codes :
  mode args = "fans" →
  walk (connect (host args) (community args)) [Varbind1 fan_oid] = Some vals →
  vals ≠ [] → statuses vals = Ok codes →
  ∃ output,
    main connect args
    = Ok (output,
          if bool_decide (4 ∈ codes) then 3
          else if failures codes =? 1 then 2 else 0).
Proof.
  intros Hm Hw Hne Hs.
  destruct (main_cases connect args)
    as [[_ ->]|[[E _]|[[E _]|[[E _]|E]]]]; try (rewrite Hm in E; discriminate).
  - rewrite (get_snmp_oper_status_spec _ _ _ _ _ _ _ Hw Hne Hs).
    destruct (bool_decide (4 ∈ codes)); [by eexists|].
    pose proof (failures_nonneg codes) as Hf.
    destruct (failures codes =? 0) eqn:H0.
    { apply Z.eqb_eq in H0. rewrite H0. by eexists. }
    apply Z.eqb_neq in H0.
    destruct (failures codes =? 1) eqn:H1.
    { apply Z.eqb_eq in H1. rewrite H1. by eexists. }
    apply Z.eqb_neq in H1.
    rewrite (proj2 (Z.ltb_ge (failures codes) 1)) by lia.
    rewrite (proj2 (Z.ltb_ge (failures codes) 2)) by lia.
    by eexists.
  - by destruct E as (E & _).
Qed.

Lemma main_fans_mode_witness :
  ∃ output,
    main (fun _ _ => answering (readings ["2"; "8"; "1"]))
      {| host := "10.0.0.1"; community := "public"; mode := "fans";
         warning := 0; critical := 0 |}
    = Ok (output,
          if bool_decide (4 ∈ [2; 8; 1]) then 3
          else if failures [2; 8; 1] =? 1 then 2 else 0).
Proof.
  refine (main_fans_mode (fun _ _ => answering (readings ["2"; "8"; "1"]))
            {| host := "10.0.0.1"; community := "public"; mode := "fans";
               warning := 0; critical := 0 |}
            [Some "2"; Some "8"; Some "1"] [2; 8; 1] eq_refl eq_refl _ eq_refl).
  discriminate.
Defined.

Lemma append_assoc (a b c : string) : (a +:+ b) +:+ c = a +:+ (b +:+ c).
Proof.
  induction a as [|x a IH]; [done|].
  change (String x ((a +:+ b) +:+ c) = String x (a +:+ (b +:+ c))). by rewrite IH.
Qed.

Lemma append_nil_r (a : string) : a +:+ "" = a.
Proof.
  induction a as [|x a IH]; [done|].
  change (String x (a +:+ "") = String x a). by rewrite IH.
Qed.

(** The severity of a verdict of the temperature check, and the answer
    it comes from. *)
Lemma get_temperatures_range s warn crit ret_code messages perf_data :
  get_temperatures s warn crit = Ok (ret_code, messages, perf_data) →
  (ret_code = 3 ∧ get s temperature_varlist = Some [])
  ∨ (0 ≤ ret_code ≤ 2 ∧ get s temperature_varlist ≠ Some []).
Proof.
  intros Hr.
  destruct (get_temperatures_Ok_inv _ _ _ _ Hr)
    as [[Hg [= -> _ _]]|(vals & temps & Hd & Hne & Ht)]; [by left|].
  right. split.
  - rewrite (get_temperatures_spec _ _ _ _ _ Hd Hne Ht) in Hr.
    pose proof (temperature_severity_range warn crit temps) as Hrange.
    destruct (temperature_severity warn crit temps =? 0).
    + destruct (true_div (sum temps) (Z.of_nat (length temps))); cbn in Hr; [|done].
      injection Hr as <- _ _. lia.
    + by injection Hr as <- _ _.
  - intros Hg. rewrite Hg in Hd. injection Hd as <-. done.
Qed.

Lemma get_temperatures_missing s warn crit l :
  get s temperature_varlist = Some l → None ∈ l →
  ∃ e, get_temperatures s warn crit = Raise e
       ∧ (e = AttributeError ∨ e = UnicodeDecodeError).
Proof.
  intros Hg Hin. destruct (decode_all_missing _ Hin) as (e & He & Hk).
  exists e. split; [|done]. unfold get_temperatures. by rewrite Hg, He.
Qed.

Lemma append_nonempty_l (a b : string) : a ≠ "" → a +:+ b ≠ "".
Proof. destruct a as [|x a]; [done|]. intros _. by change (String x (a +:+ b) ≠ ""). Qed.

Lemma append_nonempty_r (a b : string) : b ≠ "" → a +:+ b ≠ "".
Proof.
  destruct a as [|x a]; [done|]. intros _. by change (String x (a +:+ b) ≠ "").
Qed.

Lemma join_nonempty sep m0 ms : m0 ≠ "" → join sep (m0 :: ms) ≠ "".
Proof.
  intros H. destruct ms as [|m1 ms]; [done|].
  change (m0 +:+ sep +:+ join sep (m1 :: ms) ≠ ""). by apply append_nonempty_l.
Qed.

(** The first message of a verdict of each check is a text that is not
    empty. *)
Lemma get_snmp_oper_status_first s oid hw warn crit ret_code messages perf_data :
  get_snmp_oper_status s oid hw warn crit = Ok (ret_code, messages, perf_data) →
  ∃ m0 ms, messages = m0 :: ms ∧ m0 ≠ "".
Proof.
  intros H.
  destruct (get_snmp_oper_status_Ok_inv _ _ _ _ _ _ H)
    as [[_ [= -> -> ->]]|(vals & codes & Hw & Hne & Hs)].
  { by eexists _, _. }
  rewrite (get_snmp_oper_status_spec _ _ _ _ _ _ _ Hw Hne Hs) in H.
  destruct codes as [|code codes].
  { apply mapM_Ok_length in Hs. by destruct vals. }
  unfold findings in H. rewrite findings_from_cons in H.
  destruct (bool_decide (4 ∈ code :: codes)).
  { injection H as <- <- <-. eexists _, _. split; [done|].
    unfold finding. apply append_nonempty_r. by apply append_nonempty_l. }
  destruct (failures (code :: codes) =? 0).
  { injection H as <- <- <-. eexists _, _. split; [done|]. by apply append_nonempty_l. }
  injection H as <- <- <-. eexists _, _. split; [done|]. by apply append_nonempty_l.
Qed.

Lemma get_temperatures_first s warn crit ret_code messages perf_data :
  get_temperatures s warn crit = Ok (ret_code, messages, perf_data) →
  ∃ m0 ms, messages = m0 :: ms ∧ m0 ≠ "".
Proof.
  intros H.
  destruct (get_temperatures_Ok_inv _ _ _ _ H)
    as [[_ [= -> -> ->]]|(vals & temps & Hd & Hne & Ht)].
  { by eexists _, _. }
  rewrite (get_temperatures_spec _ _ _ _ _ Hd Hne Ht) in H.
  destruct (temperature_severity warn crit temps =? 0).
  { destruct (true_div (sum temps) (Z.of_nat (length temps))); [|done].
    cbn [mbind result_bind] in H. injection H as <- <- <-.
    eexists _, _. split; [done|]. by apply append_nonempty_l. }
  injection H as <- <- <-.
  pose proof (mapM_Ok_length _ _ _ Ht) as Hlen.
  destruct vals as [|temp vals]; [done|]. destruct temps as [|t temps]; [done|].
  rewrite temperature_findings_cons. eexists _, _. split; [done|].
  unfold temperature_finding.
  destruct (raises_to_critical warn crit [] t); [by apply append_nonempty_l|].
  destruct (raises_to_warning warn crit [] t); by apply append_nonempty_l.
Qed.

Lemma get_system_info_first s ret_code messages perf_data :
  get_system_info s = Ok (ret_code, messages, perf_data) →
  ∃ m0 ms, messages = m0 :: ms ∧ m0 ≠ "".
Proof.
  intros H. unfold get_system_info in H.
  destruct (decode_all (get s sys_varlist)) as [vals1|] eqn:H1; [|done].
  cbn [mbind result_bind] in H.
  destruct (decode_all_texts _ _ H1) as [t1 ->]. rewrite incomplete_texts in H.
  case_bool_decide as E1.
  { injection H as <- <- <-. by eexists _, _. }
  rewrite !index_texts in H.
  destruct (t1 !! 0%nat); [|done]. destruct (t1 !! 1%nat); [|done].
  destruct (t1 !! 2%nat); [|done]. cbn [mbind result_bind] in H.
  destruct (decode_all (get s chassis_varlist)) as [vals2|] eqn:H2; [|done].
  cbn [mbind result_bind] in H.
  destruct (decode_all_texts _ _ H2) as [t2 ->]. rewrite incomplete_texts in H.
  case_bool_decide as E2.
  { injection H as <- <- <-. by eexists _, _. }
  rewrite !index_texts in H.
  destruct (t2 !! 0%nat); [|done]. destruct (t2 !! 1%nat); [|done].
  destruct (t2 !! 2%nat); [|done]. destruct (t2 !! 3%nat); [|done].
  cbn [mbind result_bind] in H.
  destruct (decode_all (get s card_varlist)) as [vals3|] eqn:H3; [|done].
  cbn [mbind result_bind] in H.
  destruct (decode_all_texts _ _ H3) as [t3 ->]. rewrite incomplete_texts in H.
  case_bool_decide as E3.
  { injection H as <- <- <-. by eexists _, _. }
  rewrite !index_texts in H.
  destruct (t3 !! 3%nat); [|done]. cbn [mbind result_bind int_of_item] in H.
  destruct (int_of_str _) as [code|]; [|done]. cbn [mbind result_bind] in H.
  destruct (t3 !! 0%nat); [|done]. destruct (t3 !! 1%nat); [|done].
  destruct (t3 !! 2%nat); [|done]. destruct (t3 !! 4%nat); [|done].
  cbn [mbind result_bind] in H.
  pose proof (f_equal messages_of H) as Hm. clear H.
  cbn [messages_of app] in Hm. rewrite <- Hm.
  eexists _, _. split; [reflexivity|].
  apply append_nonempty_r. by apply append_nonempty_l.
Qed.

(** X15: once the command line is parsed, with one of the four modes,
    whenever the program ends by exiting, its status is 0, 1, 2 or 3 and
    the line it prints begins with the name of that status, OK, WARNING,
    CRITICAL or UNKNOWN, followed by a colon, a blank and a text that is
    not empty. *)
Theorem main_exit_status connect args output status :
  mode args ∈ ["fans"; "power"; "health"; "temp"] →
  main connect args = Ok (output, status) →
  ∃ name rest,
    ((status = 0 ∧ name = "OK") ∨ (status = 1 ∧ name = "WARNING")
     ∨ (status = 2 ∧ name = "CRITICAL") ∨ (status = 3 ∧ name = "UNKNOWN"))
    ∧ output = name +:+ ": " +:+ rest ∧ rest ≠ "".
Proof.
  intros Hmode H.
  assert (∀ v : verdict,
            (v.1.1 = 0 ∨ v.1.1 = 1 ∨ v.1.1 = 2 ∨ v.1.1 = 3) →
            (∃ m0 ms, v.1.2 = m0 :: ms ∧ m0 ≠ "") →
            rendered v = (output, status) →
            ∃ name rest,
              ((status = 0 ∧ name = "OK") ∨ (status = 1 ∧ name = "WARNING")
               ∨ (status = 2 ∧ name = "CRITICAL") ∨ (status = 3 ∧ name = "UNKNOWN"))
              ∧ output = name +:+ ": " +:+ rest ∧ rest ≠ "") as Hrender.
  { intros [[rc m] p] Hrc (m0 & ms & Hm & Hm0) Hv. cbn [fst snd] in Hrc, Hm.
    subst m. unfold rendered in Hv.
    injection Hv as <- <-.
    exists (fmt (nagiosStatus !! str_of_int rc)),
      (join nl (m0 :: ms)
       +:+ (match p with [] => "" | _ => " | " +:+ join " " (sorted p) end)).
    split; [|split].
    - destruct Hrc as [-> | [-> | [-> | ->]]];
        [left|right; left|do 2 right; left|do 3 right]; by split.
    - generalize (fmt (nagiosStatus !! str_of_int rc)). intros name.
      destruct ms as [|m1 ms], p as [|p0 ps]; cbn [join];
        rewrite <- ?append_assoc, ?append_nil_r; reflexivity.
    - by apply append_nonempty_l, join_nonempty. }
  destruct (main_cases connect args)
    as [[_ E]|[[_ E]|[[_ E]|[[_ E]|(N1 & N2 & N3 & N4 & _)]]]]; try rewrite E in H.
  - destruct (get_snmp_oper_status _ _ _ _ _) as [[[rc m] p]|] eqn:Hc; [|done].
    apply (Hrender (rc, m, p));
      [| |change (Ok (rendered (rc, m, p)) = Ok (output, status)) in H; congruence].
    + exact (proj1 (get_snmp_oper_status_shape _ _ _ _ _ _ _ _ Hc)).
    + exact (get_snmp_oper_status_first _ _ _ _ _ _ _ _ Hc).
  - destruct (get_snmp_oper_status _ _ _ _ _) as [[[rc m] p]|] eqn:Hc; [|done].
    apply (Hrender (rc, m, p));
      [| |change (Ok (rendered (rc, m, p)) = Ok (output, status)) in H; congruence].
    + exact (proj1 (get_snmp_oper_status_shape _ _ _ _ _ _ _ _ Hc)).
    + exact (get_snmp_oper_status_first _ _ _ _ _ _ _ _ Hc).
  - destruct (get_temperatures _ _ _) as [[[rc m] p]|] eqn:Hc; [|done].
    apply (Hrender (rc, m, p));
      [| |change (Ok (rendered (rc, m, p)) = Ok (output, status)) in H; congruence].
    + cbn [fst].
      destruct (get_temperatures_range _ _ _ _ _ _ Hc) as [[-> _]|[Hr _]]; lia.
    + exact (get_temperatures_first _ _ _ _ _ _ Hc).
  - destruct (get_system_info _) as [[[rc m] p]|] eqn:Hc; [|done].
    apply (Hrender (rc, m, p));
      [| |change (Ok (rendered (rc, m, p)) = Ok (output, status)) in H; congruence].
    + cbn [fst].
      destruct (get_system_info_shape _ _ _ _ Hc) as [_ [(-> & _)|[Hr _]]]; lia.
    + exact (get_system_info_first _ _ _ _ Hc).
  - exfalso. rewrite !elem_of_cons, elem_of_nil in Hmode.
    destruct Hmode as [?|[?|[?|[?|[]]]]]; done.
Qed.

Lemma main_exit_status_witness :
  ∃ name rest,
    (((2 : Z) = 0 ∧ name = "OK") ∨ ((2 : Z) = 1 ∧ name = "WARNING")
     ∨ ((2 : Z) = 2 ∧ name = "CRITICAL") ∨ ((2 : Z) = 3 ∧ name = "UNKNOWN"))
    ∧ "CRITICAL: Failed or error found for fan" +:+ nl +:+ "fan #1 reported as down"
      = name +:+ ": " +:+ rest
    ∧ rest ≠ "".
Proof.
  refine (main_exit_status (fun _ _ => answering (readings ["2"]))
           {| host := "10.0.0.1"; community := "public"; mode := "fans";
              warning := 50; critical := 60 |}
           ("CRITICAL: Failed or error found for fan" +:+ nl +:+ "fan #1 reported as down")
           2 _ eq_refl).
  apply list_elem_of_here.
Defined.

(** X16: in mode temp the program exits with status 3 only when the
    request comes back as an empty tuple; when it comes back as [None],
    or with an entry that is [None], the program ends with an exception
    that nothing catches, not with status 3. *)
Theorem main_temp_mode_missing connect args :
  mode args = "temp" →
  let s := connect (host args) (community args) in
  (get s temperature_varlist = None → main connect args = Raise TypeError)
  ∧ (∀ l, get s temperature_varlist = Some l → None ∈ l →
       ∃ e, main connect args = Raise e
            ∧ (e = AttributeError ∨ e = UnicodeDecodeError))
  ∧ (∀ output status, main connect args = Ok (output, status) →
       (status = 3 ↔ get s temperature_varlist = Some [])).
Proof.
  intros Hm s.
  destruct (main_cases connect args)
    as [[E _]|[[E _]|[[_ E]|[[E _]|(_ & _ & E & _)]]]];
    try (rewrite Hm in E; discriminate); [|done].
  fold s in E. rewrite E. repeat split.
  - intros Hg. unfold get_temperatures. by rewrite Hg.
  - intros l Hg Hin.
    destruct (get_temperatures_missing s (warning args) (critical args) l Hg Hin)
      as (e & -> & Hk).
    by exists e.
  - intros ->.
    destruct (get_temperatures s (warning args) (critical args))
      as [[[rc m] p]|] eqn:Hc; [|done].
    injection H as _ ->.
    destruct (get_temperatures_range _ _ _ _ _ _ Hc) as [[_ Hg]|[Hr _]]; [done|lia].
  - intros Hg.
    destruct (get_temperatures s (warning args) (critical args))
      as [[[rc m] p]|] eqn:Hc; [|done].
    injection H as _ <-.
    destruct (get_temperatures_range _ _ _ _ _ _ Hc) as [[-> _]|[_ Hn]]; done.
Qed.

Lemma main_temp_mode_missing_witness :
  ∃ e, main (fun _ _ => answering (Some [None; None]))
         {| host := "10.0.0.1"; community := "public"; mode := "temp";
            warning := 50; critical := 60 |}
       = Raise e
       ∧ (e = AttributeError ∨ e = UnicodeDecodeError).
Proof.
  refine (proj1 (proj2 (main_temp_mode_missing
                          (fun _ _ => answering (Some [None; None]))
                          {| host := "10.0.0.1"; community := "public"; mode := "temp";
                             warning := 50; critical := 60 |} eq_refl))
            [None; None] eq_refl _).
  apply list_elem_of_here.
Defined.


(** X17: the line the program prints does not depend on the order in
    which the check made its metrics: they are printed in the ascending
    order of their texts. *)
Theorem rendered_order_independent ret_code msg (perf_data perf_data' : list string) :
  perf_data ≡ₚ perf_data' →
  rendered (ret_code, msg, perf_data) = rendered (ret_code, msg, perf_data')
  ∧ Sorted String.le (sorted perf_data)
  ∧ sorted perf_data ≡ₚ perf_data.
Proof.
  intros Hp.
  assert (sorted perf_data = sorted perf_data') as Hs.
  { apply (Sorted_unique String.le).
    - apply Sorted_merge_sort; apply _.
    - apply Sorted_merge_sort; apply _.
    - unfold sorted. by rewrite !merge_sort_Permutation. }
  split; [|split].
  - unfold rendered. rewrite Hs.
    destruct perf_data as [|x xs], perf_data' as [|y ys]; try done.
    + by apply Permutation_nil_cons in Hp.
    + symmetry in Hp. by apply Permutation_nil_cons in Hp.
  - apply Sorted_merge_sort; apply _.
  - apply merge_sort_Permutation.
Qed.

Lemma rendered_order_independent_witness :
  rendered (1, ["m"], ["temp2=56°C;50;60"; "temp10=40°C;50;60"])
  = rendered (1, ["m"], ["temp10=40°C;50;60"; "temp2=56°C;50;60"]).
Proof.
  refine (proj1 (rendered_order_independent 1 ["m"]
                   ["temp2=56°C;50;60"; "temp10=40°C;50;60"]
                   ["temp10=40°C;50;60"; "temp2=56°C;50;60"] _)).
  apply perm_swap.
Defined.
